(** * mb_23LC1024: MicroPython driver for the Microchip 23LC1024 SPI SRAM

    A shallow embedding of [mb_23LC1024.py] and the properties of its
    bus protocol.

    The driver talks to two collaborators of the [machine] module, a
    [Pin] (the /CS line) and an [SPI] bus, and to [utime.sleep_us].
    Every call the driver makes on them is a node of a finite program
    tree ([prog]); a [transport] gives the calls their meaning.  Two
    transports are used: arbitrary ones (for the statements about the
    wire protocol, which hold whatever the hardware answers) and a
    simulated 23LC1024 ([sram]) for the round trip through the memory.

    The driver object itself is the record [device]: the attributes
    [self.spi], [self.cs] and [self.value_read], each absent until it is
    first assigned. *)

From Stdlib Require Import ZArith List String Bool Lia.
From Stdlib.Strings Require Import Byte.
From stdpp Require Import base option list gmap.
Import ListNotations.

Local Open Scope Z_scope.

(* ===================================================================== *)
(** ** Module constants (mb_23LC1024.py, lines 47-70) *)
(* ===================================================================== *)

(** [const] of MicroPython is the identity on integers. *)
Definition const (x : Z) : Z := x.

(** Instruction set for 23LC1024 *)
Definition _READ : Z := const 0x03.
Definition _WRITE : Z := const 0x02.
Definition _EDIO : Z := const 0x3b.
Definition _EQIO : Z := const 0x38.
Definition _RSTIO : Z := const 0xff.
Definition _RDMR : Z := const 0x05.
Definition _WRMR : Z := const 0x01.

(** Mode selection *)
Definition _MODE_BYTE : Z := const 0x00.
Definition _MODE_PAGE : Z := const 0x40.
Definition _MODE_SEQ : Z := const 0xc0.

Definition _MAX_ADDRESS : Z := const 131071.

(* ===================================================================== *)
(** ** Python values, exceptions and the calls on the collaborators *)
(* ===================================================================== *)

(** The exceptions that can travel through the driver: the
    [ValueError]s it raises itself, a [TypeError] of a built-in, an
    [AttributeError] for a missing attribute of [self], and whatever the
    transport raises ([OSError]). *)
Inductive exn : Type :=
| ValueError (msg : string)
| TypeError (msg : string)
| AttributeError (attr : string)
| OSError (errno : Z).

Inductive result (A : Type) : Type :=
| Ok (a : A)
| Err (e : exn).
Arguments Ok {A} a.
Arguments Err {A} e.

(** A [bytes] / [bytearray] object: its items are in [range(256)] by
    construction. *)
Abbreviation bytes := (list byte).

Definition byte_to_Z (b : byte) : Z := Z.of_N (Byte.to_N b).

(** Handles of the collaborators. *)
Record spi_obj : Type := SPI { spi_port : Z }.
Record pin_obj : Type := PinObj { pin_id : Z }.
Inductive pin_mode : Type := IN | OUT.

(** What can be stored in [self.value_read]: first the [bytes] object
    read from the bus, then the [int] converted from it. *)
Inductive pyval : Type :=
| VBytes (b : bytes)
| VInt (n : Z).

(** The calls the driver makes on its collaborators. *)
Inductive call : Type :=
| Pin (id : Z) (mode : pin_mode)        (* Pin(cs, Pin.OUT) *)
| pin_value (p : pin_obj) (x : Z)       (* p.value(x) *)
| spi_write (s : spi_obj) (buf : bytes) (* s.write(buf) *)
| spi_read (s : spi_obj) (nbytes : Z)   (* s.read(nbytes) *)
| sleep_us (us : Z).                    (* utime.sleep_us(us) *)

(** The type of what each call returns. *)
Definition reply (c : call) : Type :=
  match c with
  | Pin _ _ => pin_obj
  | spi_read _ _ => bytes
  | pin_value _ _ | spi_write _ _ | sleep_us _ => unit
  end.

(** A program: a finite tree of calls.  The continuation receives what
    the call returned, or the exception it raised. *)
Inductive prog (A : Type) : Type :=
| Ret (a : A)
| Do (c : call) (k : result (reply c) -> prog A).
Arguments Ret {A} a.
Arguments Do {A} c k.

Fixpoint pbind {A B} (p : prog A) (f : A -> prog B) : prog B :=
  match p with
  | Ret a => f a
  | Do c k => Do c (fun r => pbind (k r) f)
  end.

(* ===================================================================== *)
(** ** The driver object and the monad of its methods *)
(* ===================================================================== *)

(** The attributes of a [mb_23LC1024] instance. *)
Record device : Type := Device {
  spi : option spi_obj;
  cs : option pin_obj;
  value_read : option pyval
}.

(** The object as [__init__] receives it: no attribute yet. *)
Definition blank : device :=
  {| spi := None; cs := None; value_read := None |}.

(** A method body: it runs on [self], makes calls, and ends by returning
    or raising; the attributes assigned before an exception stay
    assigned. *)
Definition meth (A : Type) : Type := device -> prog (result A * device).

Definition ret {A} (a : A) : meth A := fun self => Ret (Ok a, self).

Definition raise {A} (e : exn) : meth A := fun self => Ret (Err e, self).

Definition bind {A B} (m : meth A) (f : A -> meth B) : meth B :=
  fun self =>
    pbind (m self) (fun '(r, self') =>
      match r with
      | Ok a => f a self'
      | Err e => Ret (Err e, self')
      end).

(** An exception of the callee propagates: the driver has no [try]. *)
Definition perform (c : call) : meth (reply c) :=
  fun self => Do c (fun r => Ret (r, self)).

Definition lift {A} (r : result A) : meth A :=
  fun self => Ret (r, self).

Declare Scope meth_scope.
Delimit Scope meth_scope with meth.
Notation "x <- m ;; k" := (bind m (fun x => k))
  (at level 100, m at next level, right associativity) : meth_scope.
Notation "m ;; k" := (bind m (fun _ => k))
  (at level 100, right associativity) : meth_scope.
Local Open Scope meth_scope.

Definition when (b : bool) (m : meth unit) : meth unit :=
  if b then m else ret tt.

(** Attribute reads and writes on [self]. *)
Definition self_spi : meth spi_obj :=
  fun self => Ret (match spi self with
                   | Some s => Ok s
                   | None => Err (AttributeError "spi")
                   end, self).

Definition self_cs : meth pin_obj :=
  fun self => Ret (match cs self with
                   | Some p => Ok p
                   | None => Err (AttributeError "cs")
                   end, self).

Definition self_value_read : meth pyval :=
  fun self => Ret (match value_read self with
                   | Some v => Ok v
                   | None => Err (AttributeError "value_read")
                   end, self).

Definition set_spi (s : spi_obj) : meth unit :=
  fun self => Ret (Ok tt, {| spi := Some s; cs := cs self;
                             value_read := value_read self |}).

Definition set_cs (p : pin_obj) : meth unit :=
  fun self => Ret (Ok tt, {| spi := spi self; cs := Some p;
                             value_read := value_read self |}).

Definition set_value_read (v : pyval) : meth unit :=
  fun self => Ret (Ok tt, {| spi := spi self; cs := cs self;
                             value_read := Some v |}).

(* ===================================================================== *)
(** ** Built-ins used by the driver *)
(* ===================================================================== *)

(** [bytearray(l)] on a list of integers.  An item outside [range(256)]
    is refused here with a [ValueError], as CPython does (a port that
    truncates instead would differ on such items only); every list the
    driver builds after its checks has its items in range (see
    [write_buffer], [read_buffer] and [mode_buffer]), so the driver
    never reaches that case. *)
Definition byte_of_int (x : Z) : option byte :=
  if x <? 0 then None else Byte.of_N (Z.to_N x).

Fixpoint bytearray (l : list Z) : result bytes :=
  match l with
  | [] => Ok []
  | x :: l' =>
      match byte_of_int x with
      | None => Err (ValueError "byte must be in range(0, 256)")
      | Some b =>
          match bytearray l' with
          | Ok bs => Ok (b :: bs)
          | Err e => Err e
          end
      end
  end.

(** [int.from_bytes(b, "big")] on a [bytes] object: the items are the
    base-256 digits, most significant first. *)
Definition int_from_bytes_big (b : bytes) : Z :=
  fold_left (fun acc x => acc * 256 + byte_to_Z x) b 0.

(** [int.from_bytes(v, "big")] on any value the attribute can hold. *)
Definition int_from_bytes (v : pyval) : result Z :=
  match v with
  | VBytes b => Ok (int_from_bytes_big b)
  | VInt _ => Err (TypeError "cannot convert 'int' object to bytes")
  end.

(* ===================================================================== *)
(** ** class mb_23LC1024 (mb_23LC1024.py, lines 74-145) *)
(* ===================================================================== *)

(** Lines 109-112 and 129-132, the same text in both methods:
<<
    address_byte = [0,0,0]
    address_byte[2] = address & 0x0000ff
    address_byte[1] = (address & 0x00ff00) >> 8
    address_byte[0] = (address & 0xff0000) >> 16
>> *)
Definition address_byte (address : Z) : list Z :=
  let address_byte := [0; 0; 0] in
  let address_byte := <[2%nat := Z.land address 0x0000ff]> address_byte in
  let address_byte :=
    <[1%nat := Z.shiftr (Z.land address 0x00ff00) 8]> address_byte in
  let address_byte :=
    <[0%nat := Z.shiftr (Z.land address 0xff0000) 16]> address_byte in
  address_byte.

(** [l[i]] for the three reads of [address_byte]; the list has three
    items, so the index is always in range. *)
Definition item (l : list Z) (i : nat) : Z := nth i l 0.

(** [__init__(self, spi, cs)], lines 77-94. *)
Definition __init__ (spi : spi_obj) (cs : Z) : meth unit :=
  set_spi spi ;;
  p <- perform (Pin cs OUT) ;;
  set_cs p ;;
  p <- self_cs ;; perform (pin_value p 1) ;;
  p <- self_cs ;; perform (pin_value p 0) ;;
  p <- self_cs ;; perform (pin_value p 1) ;;
  p <- self_cs ;; perform (pin_value p 0) ;;
  s <- self_spi ;; buf <- lift (bytearray [_WRMR; 0]) ;;
  perform (spi_write s buf) ;;
  p <- self_cs ;; perform (pin_value p 1) ;;
  perform (sleep_us 50).

(** [mb_23LC1024(spi, cs)]: a fresh object, initialised by [__init__];
    the caller gets the object only if [__init__] did not raise. *)
Definition mb_23LC1024 (spi : spi_obj) (cs : Z) : prog (result device) :=
  pbind (__init__ spi cs blank) (fun '(r, self) =>
    Ret (match r with
         | Ok _ => Ok self
         | Err e => Err e
         end)).

(** [write_byte(self, address, data)], lines 97-121. *)
Definition write_byte (address data : Z) : meth unit :=
  when ((address >? 131071) || (address <? 0))
    (raise (ValueError
      "Address is outside of device address range (0 to 131071)")) ;;
  when ((data >? 255) || (data <? 0))
    (raise (ValueError
      "You can only pass an 8-bit data value (0-255) to this function")) ;;
  let address_byte := address_byte address in
  p <- self_cs ;; perform (pin_value p 0) ;;
  s <- self_spi ;;
  buf <- lift (bytearray [_WRITE; item address_byte 0; item address_byte 1;
                          item address_byte 2; data]) ;;
  perform (spi_write s buf) ;;
  p <- self_cs ;; perform (pin_value p 1) ;;
  ret tt.

(** [read_byte(self, address)], lines 123-145. *)
Definition read_byte (address : Z) : meth pyval :=
  when ((address >? 131071) || (address <? 0))
    (raise (ValueError
      "Address is outside of device address range (0 to 131071 (0x1ffff))")) ;;
  let address_byte := address_byte address in
  p <- self_cs ;; perform (pin_value p 0) ;;
  s <- self_spi ;;
  buf <- lift (bytearray [_READ; item address_byte 0; item address_byte 1;
                          item address_byte 2]) ;;
  perform (spi_write s buf) ;;
  s <- self_spi ;; b <- perform (spi_read s 1) ;;
  set_value_read (VBytes b) ;;
  p <- self_cs ;; perform (pin_value p 1) ;;
  v <- self_value_read ;; n <- lift (int_from_bytes v) ;;
  set_value_read (VInt n) ;;
  v <- self_value_read ;;
  ret v.

(** What a caller can invoke on a constructed device. *)
Inductive op : Type :=
| write_op (address data : Z)
| read_op (address : Z).

(** One invocation; [write_byte] returns the empty tuple (here [None]),
    [read_byte] a value. *)
Definition invoke (o : op) : meth (option pyval) :=
  match o with
  | write_op address data => write_byte address data ;; ret None
  | read_op address => v <- read_byte address ;; ret (Some v)
  end.

(** A caller that invokes the methods one after the other on the same
    object and goes on after an exception.  A caller that stops at the
    first exception behaves like this one on a shorter list. *)
Fixpoint invoke_all (ops : list op) (self : device)
  : prog (list (result (option pyval)) * device) :=
  match ops with
  | [] => Ret ([], self)
  | o :: ops' =>
      pbind (invoke o self) (fun '(r, self') =>
        pbind (invoke_all ops' self') (fun '(rs, self'') =>
          Ret (r :: rs, self'')))
  end.

(** A whole execution of the driver: construction, then method calls. *)
Definition execution (spi : spi_obj) (cs : Z) (ops : list op)
  : prog (result (list (result (option pyval)) * device)) :=
  pbind (mb_23LC1024 spi cs) (fun r =>
    match r with
    | Ok self => pbind (invoke_all ops self) (fun x => Ret (Ok x))
    | Err e => Ret (Err e)
    end).

(* ===================================================================== *)
(** ** Transports and runs *)
(* ===================================================================== *)

(** A transport answers every call, by a value or an exception, and
    moves to its next state. *)
Definition transport (W : Type) : Type :=
  forall c : call, W -> result (reply c) * W.

(** What is observed of a run: each call with its answer, in order. *)
Record event : Type := Event {
  ev_call : call;
  ev_reply : result (reply ev_call)
}.

Fixpoint run {W A} (h : transport W) (p : prog A) (w : W)
  : list event * A * W :=
  match p with
  | Ret a => ([], a, w)
  | Do c k =>
      let '(r, w') := h c w in
      let '(t, a, w'') := run h (k r) w' in
      (Event c r :: t, a, w'')
  end.

Definition log_of {W A} (x : list event * A * W) : list event := fst (fst x).
Definition value_of {W A} (x : list event * A * W) : A := snd (fst x).
Definition world_of {W A} (x : list event * A * W) : W := snd x.

(** The calls alone: what the driver did to the pins and the bus. *)
Definition calls_of {W A} (x : list event * A * W) : list call :=
  map ev_call (log_of x).

(** A transport that never raises. *)
Definition reliable {W} (h : transport W) : Prop :=
  forall c w, exists r, fst (h c w) = Ok r.

Definition is_spi_write (c : call) : bool :=
  match c with
  | spi_write _ _ => true
  | _ => false
  end.

Definition failed (e : event) : bool :=
  match ev_reply e with
  | Ok _ => false
  | Err _ => true
  end.

(* ===================================================================== *)
(** ** A simulated 23LC1024 behind the pin and the bus *)
(* ===================================================================== *)

(** Modelled from the spec: the memory chip itself, which is hardware
    and not part of the repository.  It is the byte-addressed store the
    driver is written for: 131072 cells; an instruction byte after /CS
    goes low; a 24-bit address whose upper 7 bits are ignored; the MODE
    register set by WRMR, whose two upper bits select the access mode
    (00 byte, 10 page, 01 sequential, 11 reserved); in byte mode one
    data byte per instruction. *)
Inductive access_mode : Type :=
| ByteMode | PageMode | SequentialMode | ReservedMode.

Inductive direction : Type := Reading | Writing.

(** Where the chip is within the instruction started by the last
    falling edge of /CS. *)
Inductive phase : Type :=
| AwaitInstruction
| AwaitMode
| AwaitAddress (d : direction) (missing : nat) (acc : Z)
| Transfer (d : direction) (address : Z) (count : Z)
| Ignoring.

Record chip : Type := Chip {
  mem : gmap Z byte;
  mode : access_mode;
  state : phase
}.

Definition decode_mode (b : byte) : access_mode :=
  match Z.testbit (byte_to_Z b) 7, Z.testbit (byte_to_Z b) 6 with
  | false, false => ByteMode
  | true, false => PageMode
  | false, true => SequentialMode
  | true, true => ReservedMode
  end.

(** The cell that the [count]-th data byte of a transfer addresses. *)
Definition cell (m : access_mode) (address count : Z) : option Z :=
  match m with
  | ByteMode | ReservedMode => if count =? 0 then Some address else None
  | PageMode => Some (address / 32 * 32 + (address + count) mod 32)
  | SequentialMode => Some ((address + count) mod 131072)
  end.

Definition peek (c : chip) (i : Z) : byte := default x00 (mem c !! i).

(** Modelled from the spec: one byte clocked into the chip on SI, one
    byte clocked out on SO. *)
Definition clock (c : chip) (b : byte) : chip * byte :=
  match state c with
  | AwaitInstruction =>
      let next :=
        if byte_to_Z b =? _WRMR then AwaitMode
        else if byte_to_Z b =? _WRITE then AwaitAddress Writing 3 0
        else if byte_to_Z b =? _READ then AwaitAddress Reading 3 0
        else Ignoring in
      ({| mem := mem c; mode := mode c; state := next |}, x00)
  | AwaitMode =>
      ({| mem := mem c; mode := decode_mode b; state := Ignoring |}, x00)
  | AwaitAddress d missing acc =>
      let acc' := acc * 256 + byte_to_Z b in
      let next :=
        match missing with
        | S (S n) => AwaitAddress d (S n) acc'
        | _ => Transfer d (acc' mod 131072) 0
        end in
      ({| mem := mem c; mode := mode c; state := next |}, x00)
  | Transfer Writing address count =>
      let mem' :=
        match cell (mode c) address count with
        | Some i => <[i := b]> (mem c)
        | None => mem c
        end in
      ({| mem := mem'; mode := mode c;
          state := Transfer Writing address (count + 1) |}, x00)
  | Transfer Reading address count =>
      let out :=
        match cell (mode c) address count with
        | Some i => peek c i
        | None => x00
        end in
      ({| mem := mem c; mode := mode c;
          state := Transfer Reading address (count + 1) |}, out)
  | Ignoring => (c, x00)
  end.

(** [write(buf)]: the bytes of [buf] are clocked in, SO is discarded. *)
Definition clock_in (c : chip) (buf : bytes) : chip :=
  fold_left (fun c b => fst (clock c b)) buf c.

(** [read(n)]: [n] bytes are clocked out while 0x00 is sent. *)
Fixpoint clock_out (n : nat) (c : chip) : chip * bytes :=
  match n with
  | O => (c, [])
  | S n' =>
      let '(c', b) := clock c x00 in
      let '(c'', bs) := clock_out n' c' in
      (c'', b :: bs)
  end.

(** The board: which GPIO is wired to /CS, which SPI port the chip is
    on, the level of /CS, and the chip. *)
Record board : Type := Board {
  cs_gpio : Z;
  spi_bus : Z;
  cs_high : bool;
  sram_chip : chip
}.

Definition select (c : chip) : chip :=
  {| mem := mem c; mode := mode c; state := AwaitInstruction |}.

Definition set_level (w : board) (x : Z) : board :=
  let high := negb (x =? 0) in
  {| cs_gpio := cs_gpio w; spi_bus := spi_bus w; cs_high := high;
     sram_chip := if cs_high w && negb high then select (sram_chip w)
                  else sram_chip w |}.

Definition with_chip (w : board) (c : chip) : board :=
  {| cs_gpio := cs_gpio w; spi_bus := spi_bus w; cs_high := cs_high w;
     sram_chip := c |}.

(** Is the chip listening to port [s]? *)
Definition selected (w : board) (s : spi_obj) : bool :=
  (spi_port s =? spi_bus w) && negb (cs_high w).

(** Modelled from the spec: the pin, the bus and the chip behind them,
    as a transport.  It never raises. *)
Definition sram : transport board :=
  fun c w =>
    match c as c0 return result (reply c0) * board with
    | Pin id _ => (Ok (PinObj id), w)
    | pin_value p x =>
        (Ok tt, if pin_id p =? cs_gpio w then set_level w x else w)
    | spi_write s buf =>
        (Ok tt, if selected w s
                then with_chip w (clock_in (sram_chip w) buf) else w)
    | spi_read s nbytes =>
        if selected w s
        then let '(c', bs) := clock_out (Z.to_nat nbytes) (sram_chip w) in
             (Ok bs, with_chip w c')
        else (Ok (repeat x00 (Z.to_nat nbytes)), w)
    | sleep_us _ => (Ok tt, w)
    end.

(** The device is the one wired to the chip, and /CS is high. *)
Definition attached (w : board) (self : device) : Prop :=
  cs self = Some (PinObj (cs_gpio w)) /\
  spi self = Some (SPI (spi_bus w)) /\
  cs_high w = true.

(** A board after power-up: empty memory, sequential mode, /CS low. *)
Definition power_up (gpio port : Z) : board :=
  {| cs_gpio := gpio; spi_bus := port; cs_high := false;
     sram_chip := {| mem := ∅; mode := SequentialMode;
                     state := Ignoring |} |}.

(** The script of mb_23LC1024_example.py. *)
Definition example : prog (result (list (result (option pyval)) * device)) :=
  execution (SPI 0) 1
    [write_op 131071 38; write_op 0 255; read_op 131071; read_op 0].

(** Out-of-range arguments of an invocation. *)
Definition out_of_range (o : op) : Prop :=
  match o with
  | write_op address data =>
      ~ 0 <= address <= 131071 \/ ~ 0 <= data <= 255
  | read_op address => ~ 0 <= address <= 131071
  end.

(** The device of the example script, as constructed. *)
Definition memory : device :=
  {| spi := Some (SPI 0); cs := Some (PinObj 1); value_read := None |}.

(** The calls of a completed construction: [p] is the pin object that
    [Pin(cs, Pin.OUT)] returned. *)
Definition construction_log (spi : spi_obj) (cs : Z) (p : pin_obj)
  : list event :=
  [Event (Pin cs OUT) (Ok p);
   Event (pin_value p 1) (Ok tt);
   Event (pin_value p 0) (Ok tt);
   Event (pin_value p 1) (Ok tt);
   Event (pin_value p 0) (Ok tt);
   Event (spi_write spi [x01; x00]) (Ok tt);
   Event (pin_value p 1) (Ok tt);
   Event (sleep_us 50) (Ok tt)].

(** The first byte of a bus write is one of the three instructions the
    driver uses. *)
Definition known_opcode (c : call) : bool :=
  match c with
  | spi_write _ (b :: _) =>
      (byte_to_Z b =? _WRMR) || (byte_to_Z b =? _WRITE)
      || (byte_to_Z b =? _READ)
  | spi_write _ [] => false
  | _ => true
  end.

(** A bus write that starts with the READ instruction. *)
Definition read_header (c : option call) : bool :=
  match c with
  | Some (spi_write _ (b :: _)) => byte_to_Z b =? _READ
  | _ => false
  end.

(** Every bus read comes right after a READ header, [prev] being the
    call before the list: no bus read opens a transaction. *)
Fixpoint reads_follow_header (prev : option call) (t : list call) : bool :=
  match t with
  | [] => true
  | c :: t' =>
      (match c with
       | spi_read _ _ => read_header prev
       | _ => true
       end) && reads_follow_header (Some c) t'
  end.

(** What is asked of the calls of a run: known instructions only, and
    no bus read without its header. *)
Definition framed (t : list call) : Prop :=
  Forall (fun c => known_opcode c = true) t /\
  forall prev, reads_follow_header prev t = true.

(** Two transports that answer alike in related states. *)
Definition agree {W1 W2} (R : W1 -> W2 -> Prop)
    (h1 : transport W1) (h2 : transport W2) : Prop :=
  forall c w1 w2, R w1 w2 ->
    fst (h1 c w1) = fst (h2 c w2) /\ R (snd (h1 c w1)) (snd (h2 c w2)).

(** Two runs with the same calls, the same answers and the same
    outcome. *)
Definition same_run {W1 W2 A} (h1 : transport W1) (h2 : transport W2)
    (p : prog A) (w1 : W1) (w2 : W2) : Prop :=
  log_of (run h1 p w1) = log_of (run h2 p w2) /\
  value_of (run h1 p w1) = value_of (run h2 p w2).

Definition is_spi_read (c : call) : bool :=
  match c with
  | spi_read _ _ => true
  | _ => false
  end.

Definition is_cs_low (c : call) : bool :=
  match c with
  | pin_value _ x => x =? 0
  | _ => false
  end.

Definition count (f : call -> bool) (t : list event) : nat :=
  length (List.filter f (map ev_call t)).

(** The exception of the first call that raised. *)
Fixpoint first_failure (t : list event) : option exn :=
  match t with
  | [] => None
  | e :: t' =>
      match ev_reply e with
      | Err x => Some x
      | Ok _ => first_failure t'
      end
  end.

(** No call is made after a call that raised. *)
Fixpoint stops_at_failure (t : list event) : bool :=
  match t with
  | [] => true
  | e :: t' =>
      if failed e then match t' with [] => true | _ => false end
      else stops_at_failure t'
  end.

Definition raised {A} (r : result A) : option exn :=
  match r with
  | Ok _ => None
  | Err e => Some e
  end.

(** One attempt: at most one bus write and one bus read, nothing after
    a failure, and the failure is the outcome. *)
Definition single_attempt (t : list event) (outcome : option exn) : Prop :=
  (count is_spi_write t <= 1)%nat /\
  (count is_spi_read t <= 1)%nat /\
  stops_at_failure t = true /\
  forall e, first_failure t = Some e -> outcome = Some e.

(** The simulated board behind a counter of the calls made: another
    transport with the same answers. *)
Definition metered : transport (board * nat) :=
  fun c x =>
    let '(r, w') := sram c (fst x) in
    (r, (w', S (snd x))).

(* ===================================================================== *)
(** ** What the driver is compared with, and a transport that fails *)
(* ===================================================================== *)

(** A dictionary from addresses to bytes, with the two operations of the
    driver as they look to its caller: the checks of lines 99-105 and
    125-127, then an update or a lookup.  A cell never written reads as
    0x00, like a cell of [sram]. *)
Definition store_step (o : op) (m : gmap Z byte)
  : result (option pyval) * gmap Z byte :=
  match o with
  | write_op address data =>
      if (address >? 131071) || (address <? 0) then
        (Err (ValueError
           "Address is outside of device address range (0 to 131071)"), m)
      else if (data >? 255) || (data <? 0) then
        (Err (ValueError
           "You can only pass an 8-bit data value (0-255) to this function"),
         m)
      else
        match byte_of_int data with
        | Some b => (Ok None, <[address := b]> m)
        | None => (Err (ValueError "byte must be in range(0, 256)"), m)
        end
  | read_op address =>
      if (address >? 131071) || (address <? 0) then
        (Err (ValueError
           "Address is outside of device address range (0 to 131071 (0x1ffff))"),
         m)
      else
        (Ok (Some (VInt (byte_to_Z (default x00 (m !! address))))), m)
  end.

Fixpoint store_run (ops : list op) (m : gmap Z byte)
  : list (result (option pyval)) * gmap Z byte :=
  match ops with
  | [] => ([], m)
  | o :: ops' =>
      let '(r, m') := store_step o m in
      let '(rs, m'') := store_run ops' m' in
      (r :: rs, m'')
  end.

(** The simulated board, except that the calls selected by [bad] raise
    [OSError(errno)] and have no effect. *)
Definition faulty (bad : call -> bool) (errno : Z) : transport board :=
  fun c w => if bad c then (Err (OSError errno), w) else sram c w.

(** Driving /CS high. *)
Definition is_cs_high (c : call) : bool :=
  match c with
  | pin_value _ x => negb (x =? 0)
  | _ => false
  end.

(** What the first bus read of a log answered. *)
Fixpoint answer_of_read (t : list event) : option (result bytes) :=
  match t with
  | [] => None
  | e :: t' =>
      match ev_call e as c return result (reply c) -> option (result bytes)
      with
      | spi_read _ _ => fun r => Some r
      | _ => fun _ => answer_of_read t'
      end (ev_reply e)
  end.

(** The calls of the driver have one of these shapes. *)
Definition shaped (c : call) : Prop :=
  match c with
  | Pin _ m => m = OUT
  | pin_value _ x => x = 0 \/ x = 1
  | spi_write _ buf =>
      map byte_to_Z buf = [_WRMR; _MODE_BYTE] \/
      (exists hi mid lo v, map byte_to_Z buf = [_WRITE; hi; mid; lo; v]) \/
      (exists hi mid lo, map byte_to_Z buf = [_READ; hi; mid; lo])
  | spi_read _ n => n = 1
  | sleep_us us => us = 50
  end.




(** mb_23LC1024_example.py, lines 41-59, on the bus object [spi] that
    line 38 obtained from the [machine] module: the device is
    constructed on GP1, two bytes are written, and the two values read
    back are printed.  The result is the list of what was printed; an
    exception ends the script. *)
Definition example_body : meth (list pyval) :=
  write_byte 131071 38 ;;
  write_byte 0 255 ;;
  read_value <- read_byte 131071 ;;
  let printed := [read_value] in
  read_value <- read_byte 0 ;;
  let printed := printed ++ [read_value] in
  ret printed.

Definition example_main (spi : spi_obj) : prog (result (list pyval)) :=
  let cs := 1 in
  pbind (mb_23LC1024 spi cs) (fun r =>
    match r with
    | Ok memory => pbind (example_body memory) (fun '(r, _) => Ret r)
    | Err e => Ret (Err e)
    end).

(** A board between two calls: /CS high, the wiring of [w], and the
    given memory, mode and phase of the chip. *)
Definition idle (w : board) (m : gmap Z byte) (md : access_mode)
    (st : phase) : board :=
  {| cs_gpio := cs_gpio w; spi_bus := spi_bus w; cs_high := true;
     sram_chip := {| mem := m; mode := md; state := st |} |}.



Definition returned {A} (r : result A) : bool :=
  match r with
  | Ok _ => true
  | Err _ => false
  end.


(** The simulated board, except that every bus read is answered with
    [bs], whatever number of bytes was asked for. *)
Definition answering (bs : bytes) : transport board :=
  fun c w =>
    match c as c0 return result (reply c0) * board with
    | spi_read s n => (Ok bs, snd (sram (spi_read s n) w))
    | c' => sram c' w
    end.

(* ===================================================================== *)
(** * Properties *)
(* ===================================================================== *)

(* ===================================================================== *)
(** ** Address encoding *)
(* ===================================================================== *)

Section AddressEncoding.

Lemma land_0x0000ff a : Z.land a 0x0000ff = a mod 256.
Proof. change 0x0000ff with (Z.ones 8). now rewrite Z.land_ones. Qed.

Lemma land_0x00ff00 a : Z.shiftr (Z.land a 0x00ff00) 8 = (a / 256) mod 256.
Proof.
  rewrite Z.shiftr_land. change (Z.shiftr 0x00ff00 8) with (Z.ones 8).
  rewrite Z.land_ones by lia. now rewrite Z.shiftr_div_pow2.
Qed.

Lemma land_0xff0000 a :
  Z.shiftr (Z.land a 0xff0000) 16 = (a / 65536) mod 256.
Proof.
  rewrite Z.shiftr_land. change (Z.shiftr 0xff0000 16) with (Z.ones 8).
  rewrite Z.land_ones by lia. now rewrite Z.shiftr_div_pow2.
Qed.

(** The three items, for any Python integer. *)
Lemma address_byte_items a :
  address_byte a = [(a / 65536) mod 256; (a / 256) mod 256; a mod 256].
Proof.
  unfold address_byte. cbn.
  now rewrite land_0x0000ff, land_0x00ff00, land_0xff0000.
Qed.

Lemma address_byte_length a : length (address_byte a) = 3%nat.
Proof. reflexivity. Qed.

Lemma item_range a i : 0 <= item (address_byte a) i < 256.
Proof.
  rewrite address_byte_items. unfold item.
  destruct i as [|[|[|i]]]; cbn;
    [apply Z.mod_pos_bound; lia .. | destruct i; lia].
Qed.

(** On the device's address range the top item is the 17th bit. *)
Lemma address_byte_valid a :
  0 <= a <= 131071 ->
  address_byte a = [a / 65536; (a / 256) mod 256; a mod 256] /\
  0 <= a / 65536 <= 1.
Proof.
  intros Ha. rewrite address_byte_items.
  assert (H : 0 <= a / 65536 <= 1) by (Z.div_mod_to_equations; lia).
  split; [| exact H]. now rewrite (Z.mod_small (a / 65536)) by lia.
Qed.

Lemma address_byte_value a :
  0 <= a <= 131071 ->
  item (address_byte a) 0 * 65536 + item (address_byte a) 1 * 256
    + item (address_byte a) 2 = a.
Proof.
  intros Ha. destruct (address_byte_valid a Ha) as [-> _].
  unfold item; cbn. Z.div_mod_to_equations. lia.
Qed.

End AddressEncoding.

(* ===================================================================== *)
(** ** Bytes *)
(* ===================================================================== *)

Section Bytes.

Lemma byte_to_Z_range b : 0 <= byte_to_Z b < 256.
Proof.
  unfold byte_to_Z. pose proof (Byte.to_N_bounded b). lia.
Qed.

Lemma byte_of_int_Some x :
  0 <= x < 256 -> exists b, byte_of_int x = Some b /\ byte_to_Z b = x.
Proof.
  intros Hx. unfold byte_of_int.
  destruct (Z.ltb_spec x 0) as [|_]; [lia|].
  destruct (Byte.of_N (Z.to_N x)) as [b|] eqn:E.
  - exists b. split; [reflexivity|].
    unfold byte_to_Z. apply Byte.to_of_N in E. rewrite E. lia.
  - apply Byte.of_N_None_iff in E. lia.
Qed.

Lemma byte_to_Z_inj b1 b2 : byte_to_Z b1 = byte_to_Z b2 -> b1 = b2.
Proof.
  unfold byte_to_Z. intros H. apply N2Z.inj in H.
  assert (E : Byte.of_N (Byte.to_N b1) = Byte.of_N (Byte.to_N b2))
    by now rewrite H.
  rewrite !Byte.of_to_N in E. now inversion E.
Qed.

(** [bytearray] succeeds on items in [range(256)] and keeps them. *)
Lemma bytearray_in_range l :
  Forall (fun x => 0 <= x < 256) l ->
  exists buf, bytearray l = Ok buf /\ map byte_to_Z buf = l.
Proof.
  induction 1 as [|x l Hx _ [buf [E1 E2]]]; cbn.
  - now exists [].
  - destruct (byte_of_int_Some x Hx) as [b [-> Hb]]. rewrite E1.
    exists (b :: buf). cbn. now rewrite Hb, E2.
Qed.

Lemma int_from_bytes_big_one b : int_from_bytes_big [b] = byte_to_Z b.
Proof. reflexivity. Qed.

End Bytes.

(* ===================================================================== *)
(** ** Running programs *)
(* ===================================================================== *)

Arguments bytearray : simpl never.
Arguments address_byte : simpl never.
Arguments item : simpl never.

Section Runs.

Context {W : Type} (h : transport W).

Lemma run_pbind {A B} (p : prog A) (f : A -> prog B) (w : W) :
  run h (pbind p f) w =
  let '(t1, a, w1) := run h p w in
  let '(t2, b, w2) := run h (f a) w1 in
  (t1 ++ t2, b, w2).
Proof.
  revert w. induction p as [a|c k IH]; intros w; cbn.
  - now destruct (run h (f a) w) as [[t2 b] w2].
  - destruct (h c w) as [r w']. rewrite IH.
    destruct (run h (k r) w') as [[t1 a] w1].
    now destruct (run h (f a) w1) as [[t2 b] w2].
Qed.

Lemma log_pbind {A B} (p : prog A) (f : A -> prog B) (w : W) :
  log_of (run h (pbind p f) w) =
  log_of (run h p w)
    ++ log_of (run h (f (value_of (run h p w))) (world_of (run h p w))).
Proof.
  rewrite run_pbind. destruct (run h p w) as [[t1 a] w1]. cbn.
  now destruct (run h (f a) w1) as [[t2 b] w2].
Qed.

Lemma value_pbind {A B} (p : prog A) (f : A -> prog B) (w : W) :
  value_of (run h (pbind p f) w) =
  value_of (run h (f (value_of (run h p w))) (world_of (run h p w))).
Proof.
  rewrite run_pbind. destruct (run h p w) as [[t1 a] w1]. cbn.
  now destruct (run h (f a) w1) as [[t2 b] w2].
Qed.

Lemma world_pbind {A B} (p : prog A) (f : A -> prog B) (w : W) :
  world_of (run h (pbind p f) w) =
  world_of (run h (f (value_of (run h p w))) (world_of (run h p w))).
Proof.
  rewrite run_pbind. destruct (run h p w) as [[t1 a] w1]. cbn.
  now destruct (run h (f a) w1) as [[t2 b] w2].
Qed.

End Runs.

Lemma range_check_false a hi :
  0 <= a <= hi -> (a >? hi) || (a <? 0) = false.
Proof.
  intros H. rewrite Z.gtb_ltb. apply orb_false_iff.
  split; apply Z.ltb_ge; lia.
Qed.

Lemma range_check_true a hi :
  ~ 0 <= a <= hi -> (a >? hi) || (a <? 0) = true.
Proof.
  intros H. rewrite Z.gtb_ltb. apply orb_true_iff.
  destruct (Z.ltb_spec hi a); [now left|right]. apply Z.ltb_lt. lia.
Qed.

(** The buffers of the two transfers. *)
Lemma write_buffer a v :
  0 <= a <= 131071 -> 0 <= v <= 255 ->
  exists buf,
    bytearray [_WRITE; item (address_byte a) 0; item (address_byte a) 1;
               item (address_byte a) 2; v] = Ok buf /\
    map byte_to_Z buf =
      [0x02; a / 65536; (a / 256) mod 256; a mod 256; v].
Proof.
  intros Ha Hv.
  destruct (bytearray_in_range
              [_WRITE; item (address_byte a) 0; item (address_byte a) 1;
               item (address_byte a) 2; v]) as [buf [E1 E2]].
  - repeat constructor; try apply item_range; try lia; now cbv.
  - exists buf. split; [exact E1|]. rewrite E2.
    destruct (address_byte_valid a Ha) as [-> _]. reflexivity.
Qed.

Lemma read_buffer a :
  0 <= a <= 131071 ->
  exists buf,
    bytearray [_READ; item (address_byte a) 0; item (address_byte a) 1;
               item (address_byte a) 2] = Ok buf /\
    map byte_to_Z buf = [0x03; a / 65536; (a / 256) mod 256; a mod 256].
Proof.
  intros Ha.
  destruct (bytearray_in_range
              [_READ; item (address_byte a) 0; item (address_byte a) 1;
               item (address_byte a) 2]) as [buf [E1 E2]].
  - repeat constructor; try apply item_range; now cbv.
  - exists buf. split; [exact E1|]. rewrite E2.
    destruct (address_byte_valid a Ha) as [-> _]. reflexivity.
Qed.

(** One call answered by a transport that never raises. *)
Ltac answered h Hrel :=
  match goal with
  | |- context [h ?c ?w] =>
      let r := fresh "r" in
      let w' := fresh "w" in
      let E := fresh "E" in
      let Hr := fresh "Hr" in
      destruct (Hrel c w) as [r Hr];
      destruct (h c w) as [? w'] eqn:E;
      cbn in Hr, r; subst; cbn
  end.

(* ===================================================================== *)
(** ** The address bytes on the wire *)
(* ===================================================================== *)

(** C4. For every address in [0, 131071] the encoding shared by
    [write_byte] and [read_byte] is exactly three items, most
    significant first, whose base-256 value is the address; the top item
    is at most 1, so its upper seven bits are zero.  The encoding of 0
    is [0x00, 0x00, 0x00] and that of 131071 is [0x01, 0xFF, 0xFF]. *)
Theorem address_encoding_big_endian (a : Z) :
  0 <= a <= 131071 ->
  exists hi mid lo,
    address_byte a = [hi; mid; lo] /\
    hi * 65536 + mid * 256 + lo = a /\
    0 <= hi <= 1 /\ 0 <= mid <= 255 /\ 0 <= lo <= 255 /\
    Z.shiftr hi 1 = 0 /\
    address_byte 0 = [0x00; 0x00; 0x00] /\
    address_byte 131071 = [0x01; 0xFF; 0xFF].
Proof.
  intros Ha. destruct (address_byte_valid a Ha) as [E Hhi].
  exists (a / 65536), ((a / 256) mod 256), (a mod 256).
  split; [exact E|].
  split; [Z.div_mod_to_equations; lia|].
  split; [exact Hhi|].
  split; [pose proof (Z.mod_pos_bound (a / 256) 256); lia|].
  split; [pose proof (Z.mod_pos_bound a 256); lia|].
  split; [|split; reflexivity].
  rewrite Z.shiftr_div_pow2 by lia. change (2 ^ 1) with 2.
  Z.div_mod_to_equations; lia.
Qed.

Lemma address_encoding_big_endian_witness :
  exists hi mid lo,
    address_byte 500 = [hi; mid; lo] /\
    hi * 65536 + mid * 256 + lo = 500 /\
    0 <= hi <= 1 /\ 0 <= mid <= 255 /\ 0 <= lo <= 255 /\
    Z.shiftr hi 1 = 0 /\
    address_byte 0 = [0x00; 0x00; 0x00] /\
    address_byte 131071 = [0x01; 0xFF; 0xFF].
Proof. apply (address_encoding_big_endian 500). lia. Defined.

(* ===================================================================== *)
(** ** Validation *)
(* ===================================================================== *)

(** C5. An address outside [0, 131071] makes [write_byte] (whatever the
    data) and [read_byte] raise a [ValueError]; a data value outside
    [0, 255] makes [write_byte] raise one.  In each case no call at all
    is made on the pin or the bus, and the device and the transport are
    left as they were. *)
Theorem invalid_argument_rejected {W} (h : transport W) (w : W)
    (self : device) (o : op) :
  out_of_range o ->
  match o with
  | write_op address data =>
      exists msg,
        run h (write_byte address data self) w
        = ([], (Err (ValueError msg), self), w)
  | read_op address =>
      exists msg,
        run h (read_byte address self) w
        = ([], (Err (ValueError msg), self), w)
  end.
Proof.
  destruct o as [address data|address]; cbn; intros Hbad.
  - destruct (Z_le_dec 0 address) as [H0|H0];
      [destruct (Z_le_dec address 131071) as [H1|H1]|].
    + assert (Hd : ~ 0 <= data <= 255) by (destruct Hbad; [lia|assumption]).
      unfold write_byte.
      rewrite (range_check_false address 131071) by lia.
      rewrite (range_check_true data 255 Hd). cbn. eauto.
    + unfold write_byte.
      rewrite (range_check_true address 131071) by lia. cbn. eauto.
    + unfold write_byte.
      rewrite (range_check_true address 131071) by lia. cbn. eauto.
  - unfold read_byte.
    rewrite (range_check_true address 131071 Hbad). cbn. eauto.
Qed.

Lemma invalid_argument_rejected_witness :
  out_of_range (write_op 131072 10) /\
  exists msg,
    run sram (write_byte 131072 10 memory) (power_up 1 0)
    = ([], (Err (ValueError msg), memory), power_up 1 0).
Proof.
  assert (H : out_of_range (write_op 131072 10)) by (cbn; lia).
  split; [exact H|].
  exact (invalid_argument_rejected sram (power_up 1 0) memory
           (write_op 131072 10) H).
Defined.

(** The messages, and the order of the two checks of [write_byte]. *)
Lemma write_byte_bad_address {W} (h : transport W) w self address data :
  ~ 0 <= address <= 131071 ->
  run h (write_byte address data self) w
  = ([], (Err (ValueError
       "Address is outside of device address range (0 to 131071)"),
          self), w).
Proof.
  intros H. unfold write_byte.
  now rewrite (range_check_true address 131071 H).
Qed.

Lemma write_byte_bad_data {W} (h : transport W) w self address data :
  0 <= address <= 131071 -> ~ 0 <= data <= 255 ->
  run h (write_byte address data self) w
  = ([], (Err (ValueError
       "You can only pass an 8-bit data value (0-255) to this function"),
          self), w).
Proof.
  intros Ha H. unfold write_byte.
  rewrite (range_check_false address 131071 Ha).
  now rewrite (range_check_true data 255 H).
Qed.

Lemma read_byte_bad_address {W} (h : transport W) w self address :
  ~ 0 <= address <= 131071 ->
  run h (read_byte address self) w
  = ([], (Err (ValueError
       "Address is outside of device address range (0 to 131071 (0x1ffff))"),
          self), w).
Proof.
  intros H. unfold read_byte.
  now rewrite (range_check_true address 131071 H).
Qed.

(** An address and a data value just past their ranges. *)
Example write_131072_rejected :
  log_of (run sram (write_byte 131072 10 memory) (power_up 1 0)) = [].
Proof. reflexivity. Qed.

Example write_256_rejected :
  log_of (run sram (write_byte 5 256 memory) (power_up 1 0)) = [].
Proof. reflexivity. Qed.

(* ===================================================================== *)
(** ** The simulated chip as a transport *)
(* ===================================================================== *)

Lemma sram_reliable : reliable sram.
Proof.
  intros c w. destruct c as [id m|p x|s buf|s n|us]; cbn; eauto.
  destruct (selected w s); [|eauto].
  destruct (clock_out (Z.to_nat n) (sram_chip w)); cbn; eauto.
Qed.

Lemma clock_out_length n c : length (snd (clock_out n c)) = n.
Proof.
  revert c. induction n as [|n IH]; intros c; cbn; [reflexivity|].
  destruct (clock c x00) as [c' b]. specialize (IH c').
  destruct (clock_out n c') as [c'' bs]. cbn in *. now rewrite IH.
Qed.

(** [read(1)] on the simulated bus answers with one byte. *)
Lemma sram_read_one s w rx :
  fst (sram (spi_read s 1) w) = Ok rx -> length rx = 1%nat.
Proof.
  cbn [sram]. destruct (selected w s).
  - pose proof (clock_out_length (Z.to_nat 1) (sram_chip w)) as H.
    destruct (clock_out (Z.to_nat 1) (sram_chip w)) as [c' bs].
    cbn in *. intros [= <-]. exact H.
  - cbn. now intros [= <-].
Qed.

(* ===================================================================== *)
(** ** The write transaction *)
(* ===================================================================== *)

(** C2. On a constructed device and a transport that answers every
    call, [write_byte(a, v)] with [a] in [0, 131071] and [v] in
    [0, 255] makes exactly three calls: /CS low, one bus write of the
    five bytes [0x02, hi, mid, lo, v], /CS high; hi, mid, lo being the
    big-endian base-256 digits of [a].  It returns the empty tuple. *)
Theorem write_byte_transaction {W} (h : transport W) (w : W)
    (self : device) (p : pin_obj) (s : spi_obj) (a v : Z) :
  reliable h ->
  cs self = Some p -> spi self = Some s ->
  0 <= a <= 131071 -> 0 <= v <= 255 ->
  exists buf hi mid lo,
    map byte_to_Z buf = [0x02; hi; mid; lo; v] /\
    hi * 65536 + mid * 256 + lo = a /\
    0 <= hi <= 255 /\ 0 <= mid <= 255 /\ 0 <= lo <= 255 /\
    log_of (run h (write_byte a v self) w)
    = [Event (pin_value p 0) (Ok tt);
       Event (spi_write s buf) (Ok tt);
       Event (pin_value p 1) (Ok tt)] /\
    value_of (run h (write_byte a v self) w) = (Ok tt, self).
Proof.
  intros Hrel Hp Hs Ha Hv.
  destruct (write_buffer a v Ha Hv) as [buf [Hbuf Hmap]].
  exists buf, (a / 65536), ((a / 256) mod 256), (a mod 256).
  split; [exact Hmap|].
  split; [Z.div_mod_to_equations; lia|].
  split; [Z.div_mod_to_equations; lia|].
  split; [pose proof (Z.mod_pos_bound (a / 256) 256); lia|].
  split; [pose proof (Z.mod_pos_bound a 256); lia|].
  unfold write_byte.
  rewrite (range_check_false a 131071 Ha), (range_check_false v 255 Hv).
  cbn. unfold self_cs, self_spi. rewrite Hp, Hs, Hbuf. cbn.
  answered h Hrel. answered h Hrel. answered h Hrel.
  destruct r, r0, r1. split; reflexivity.
Qed.

Lemma write_byte_transaction_witness :
  exists buf hi mid lo,
    map byte_to_Z buf = [0x02; hi; mid; lo; 38] /\
    hi * 65536 + mid * 256 + lo = 131071 /\
    0 <= hi <= 255 /\ 0 <= mid <= 255 /\ 0 <= lo <= 255 /\
    log_of (run sram (write_byte 131071 38 memory) (power_up 1 0))
    = [Event (pin_value (PinObj 1) 0) (Ok tt);
       Event (spi_write (SPI 0) buf) (Ok tt);
       Event (pin_value (PinObj 1) 1) (Ok tt)] /\
    value_of (run sram (write_byte 131071 38 memory) (power_up 1 0))
    = (Ok tt, memory).
Proof.
  apply (write_byte_transaction sram (power_up 1 0) memory
           (PinObj 1) (SPI 0) 131071 38 sram_reliable);
    [reflexivity | reflexivity | lia | lia].
Defined.

(* ===================================================================== *)
(** ** The read transaction *)
(* ===================================================================== *)

(** The whole run of a valid [read_byte] on a transport that answers
    every call: [rx] is what [read(1)] answered. *)
Lemma read_byte_run {W} (h : transport W) (w : W)
    (self : device) (p : pin_obj) (s : spi_obj) (a : Z) :
  reliable h ->
  cs self = Some p -> spi self = Some s ->
  0 <= a <= 131071 ->
  exists buf rx w' w'',
    map byte_to_Z buf = [0x03; a / 65536; (a / 256) mod 256; a mod 256] /\
    fst (h (spi_read s 1) w') = Ok rx /\
    run h (read_byte a self) w
    = ([Event (pin_value p 0) (Ok tt);
        Event (spi_write s buf) (Ok tt);
        Event (spi_read s 1) (Ok rx);
        Event (pin_value p 1) (Ok tt)],
       (Ok (VInt (int_from_bytes_big rx)),
        {| spi := spi self; cs := cs self;
           value_read := Some (VInt (int_from_bytes_big rx)) |}),
       w'').
Proof.
  intros Hrel Hp Hs Ha.
  destruct (read_buffer a Ha) as [buf [Hbuf Hmap]].
  unfold read_byte. rewrite (range_check_false a 131071 Ha).
  cbn. unfold self_cs, self_spi. rewrite Hp, Hs, Hbuf. cbn.
  answered h Hrel. answered h Hrel.
  match goal with
  | |- context [h (spi_read s 1) ?x] => set (wr := x)
  end.
  destruct (Hrel (spi_read s 1) wr) as [rx Hrx].
  destruct (h (spi_read s 1) wr) as [? w2] eqn:E2. cbn in Hrx, rx. subst.
  cbn. answered h Hrel.
  destruct r, r0, r1.
  exists buf, rx, wr. eexists.
  split; [exact Hmap|]. split; [now rewrite E2|]. reflexivity.
Qed.

(** C3. On a constructed device and a transport that answers every
    call, [read_byte(a)] with [a] in [0, 131071] drives /CS low, writes
    the four bytes [0x03, hi, mid, lo] (big-endian digits of [a]), reads
    one byte with /CS still low, drives /CS high, and returns what was
    read as a big-endian unsigned integer: for a one-byte answer, the
    value of that byte.  For [read_byte(500)] the header is
    [0x03, 0x00, 0x01, 0xF4]. *)
Theorem read_byte_transaction {W} (h : transport W) (w : W)
    (self : device) (p : pin_obj) (s : spi_obj) (a : Z) :
  reliable h ->
  cs self = Some p -> spi self = Some s ->
  0 <= a <= 131071 ->
  exists buf hi mid lo rx,
    map byte_to_Z buf = [0x03; hi; mid; lo] /\
    hi * 65536 + mid * 256 + lo = a /\
    0 <= hi <= 255 /\ 0 <= mid <= 255 /\ 0 <= lo <= 255 /\
    log_of (run h (read_byte a self) w)
    = [Event (pin_value p 0) (Ok tt);
       Event (spi_write s buf) (Ok tt);
       Event (spi_read s 1) (Ok rx);
       Event (pin_value p 1) (Ok tt)] /\
    fst (value_of (run h (read_byte a self) w))
    = Ok (VInt (int_from_bytes_big rx)) /\
    (forall b, rx = [b] ->
       int_from_bytes_big rx = byte_to_Z b /\ 0 <= byte_to_Z b <= 255) /\
    (a = 500 -> map byte_to_Z buf = [0x03; 0x00; 0x01; 0xF4]).
Proof.
  intros Hrel Hp Hs Ha.
  destruct (read_byte_run h w self p s a Hrel Hp Hs Ha)
    as (buf & rx & w' & w'' & Hmap & _ & Hrun).
  exists buf, (a / 65536), ((a / 256) mod 256), (a mod 256), rx.
  split; [exact Hmap|].
  split; [Z.div_mod_to_equations; lia|].
  split; [Z.div_mod_to_equations; lia|].
  split; [pose proof (Z.mod_pos_bound (a / 256) 256); lia|].
  split; [pose proof (Z.mod_pos_bound a 256); lia|].
  rewrite Hrun. split; [reflexivity|]. split; [reflexivity|].
  split.
  - intros b ->. split; [reflexivity|].
    pose proof (byte_to_Z_range b). lia.
  - intros ->. exact Hmap.
Qed.

Lemma read_byte_transaction_witness :
  exists buf hi mid lo rx,
    map byte_to_Z buf = [0x03; hi; mid; lo] /\
    hi * 65536 + mid * 256 + lo = 500 /\
    0 <= hi <= 255 /\ 0 <= mid <= 255 /\ 0 <= lo <= 255 /\
    log_of (run sram (read_byte 500 memory) (power_up 1 0))
    = [Event (pin_value (PinObj 1) 0) (Ok tt);
       Event (spi_write (SPI 0) buf) (Ok tt);
       Event (spi_read (SPI 0) 1) (Ok rx);
       Event (pin_value (PinObj 1) 1) (Ok tt)] /\
    fst (value_of (run sram (read_byte 500 memory) (power_up 1 0)))
    = Ok (VInt (int_from_bytes_big rx)) /\
    (forall b, rx = [b] ->
       int_from_bytes_big rx = byte_to_Z b /\ 0 <= byte_to_Z b <= 255) /\
    (500 = 500 -> map byte_to_Z buf = [0x03; 0x00; 0x01; 0xF4]).
Proof.
  apply (read_byte_transaction sram (power_up 1 0) memory
           (PinObj 1) (SPI 0) 500 sram_reliable);
    [reflexivity | reflexivity | lia].
Defined.

(** [read_byte(500)] on the simulated board. *)
Example read_500_header :
  calls_of (run sram (read_byte 500 memory) (power_up 1 0))
  = [pin_value (PinObj 1) 0;
     spi_write (SPI 0) [x03; x00; x01; xf4];
     spi_read (SPI 0) 1;
     pin_value (PinObj 1) 1].
Proof. reflexivity. Qed.

(** C10. For every address in [0, 131071], on a transport that answers
    every call and answers [read(1)] with exactly one byte, [read_byte]
    makes one bus read of one byte and returns the byte [b] that this
    read answered, converted by the big-endian unsigned interpretation:
    the integer [n] with [n = int.from_bytes([b], "big")], which is the
    value of [b] and lies between 0 and 255. *)
Theorem read_byte_in_data_range {W} (h : transport W) (w : W)
    (self : device) (p : pin_obj) (s : spi_obj) (a : Z) :
  reliable h ->
  (forall w' rx, fst (h (spi_read s 1) w') = Ok rx -> length rx = 1%nat) ->
  cs self = Some p -> spi self = Some s ->
  0 <= a <= 131071 ->
  exists b n,
    In (spi_read s 1) (calls_of (run h (read_byte a self) w)) /\
    answer_of_read (log_of (run h (read_byte a self) w)) = Some (Ok [b]) /\
    n = int_from_bytes_big [b] /\
    n = byte_to_Z b /\
    fst (value_of (run h (read_byte a self) w)) = Ok (VInt n) /\
    0 <= n <= 255.
Proof.
  intros Hrel Hone Hp Hs Ha.
  destruct (read_byte_run h w self p s a Hrel Hp Hs Ha)
    as (buf & rx & w' & w'' & _ & Hrx & Hrun).
  apply Hone in Hrx.
  destruct rx as [|b [|b' rx]]; try discriminate Hrx.
  exists b, (byte_to_Z b). rewrite Hrun.
  split; [cbn; auto|].
  split; [reflexivity|]. split; [reflexivity|]. split; [reflexivity|].
  split; [reflexivity|].
  pose proof (byte_to_Z_range b). lia.
Qed.

Lemma read_byte_in_data_range_witness :
  let w := idle (power_up 1 0) (<[131071 := x26]> ∅) ByteMode Ignoring in
  exists b n,
    In (spi_read (SPI 0) 1) (calls_of (run sram (read_byte 131071 memory) w)) /\
    answer_of_read (log_of (run sram (read_byte 131071 memory) w))
    = Some (Ok [b]) /\
    n = int_from_bytes_big [b] /\
    n = byte_to_Z b /\
    fst (value_of (run sram (read_byte 131071 memory) w)) = Ok (VInt n) /\
    0 <= n <= 255.
Proof.
  apply (read_byte_in_data_range sram
           (idle (power_up 1 0) (<[131071 := x26]> ∅) ByteMode Ignoring)
           memory (PinObj 1) (SPI 0) 131071 sram_reliable
           (sram_read_one (SPI 0)));
    [reflexivity | reflexivity | lia].
Defined.

(** On that board the byte answered is 0x26, and 38 is returned. *)
Example read_byte_returns_received_byte :
  let w := idle (power_up 1 0) (<[131071 := x26]> ∅) ByteMode Ignoring in
  answer_of_read (log_of (run sram (read_byte 131071 memory) w))
  = Some (Ok [x26]) /\
  fst (value_of (run sram (read_byte 131071 memory) w)) = Ok (VInt 38).
Proof. split; reflexivity. Qed.

(* ===================================================================== *)
(** ** Construction *)
(* ===================================================================== *)

Lemma mode_buffer : bytearray [_WRMR; 0] = Ok [x01; x00].
Proof. reflexivity. Qed.

(** Without a device there is no method call: when construction raises,
    the execution ends there. *)
Lemma no_call_without_device {W} (h : transport W) w spi cs ops e :
  value_of (run h (mb_23LC1024 spi cs) w) = Err e ->
  run h (execution spi cs ops) w
  = (log_of (run h (mb_23LC1024 spi cs) w), Err e,
     world_of (run h (mb_23LC1024 spi cs) w)).
Proof.
  intros H. unfold execution. rewrite run_pbind.
  destruct (run h (mb_23LC1024 spi cs) w) as [[t r] w1]. cbn in *.
  subst r. cbn. now rewrite app_nil_r.
Qed.

(** C6. On a transport that answers every call, construction makes
    these calls, in this order and no others: the /CS pin is created as
    an output; /CS is driven high, low, high, with no bus call in
    between; /CS is driven low, the two bytes [0x01, 0x00] are written
    in one bus write, /CS is driven high; [sleep_us(50)].  The mode
    byte is [_MODE_BYTE], whose two upper bits are 00 and whose other
    bits are zero.  Every call of a method in an execution comes after
    this sequence. *)
Theorem construction_sequence {W} (h : transport W) (w : W)
    (spi : spi_obj) (cs : Z) :
  reliable h ->
  exists p self w',
    run h (mb_23LC1024 spi cs) w
    = (construction_log spi cs p, Ok self, w') /\
    self = {| spi := Some spi; cs := Some p; value_read := None |} /\
    map ev_call (construction_log spi cs p)
    = [Pin cs OUT;
       pin_value p 1; pin_value p 0; pin_value p 1;
       pin_value p 0; spi_write spi [x01; x00]; pin_value p 1;
       sleep_us 50] /\
    map byte_to_Z [x01; x00] = [_WRMR; _MODE_BYTE] /\
    _MODE_BYTE = 0 /\
    forall ops,
      log_of (run h (execution spi cs ops) w)
      = construction_log spi cs p
          ++ log_of (run h (invoke_all ops self) w').
Proof.
  intros Hrel.
  assert (Hrun : exists p w',
    run h (mb_23LC1024 spi cs) w
    = (construction_log spi cs p,
       Ok {| spi := Some spi; cs := Some p; value_read := None |}, w')).
  { unfold mb_23LC1024, __init__. cbn. rewrite mode_buffer. cbn.
    do 8 answered h Hrel.
    destruct r0, r1, r2, r3, r4, r5, r6. eauto. }
  destruct Hrun as (p & w' & Hrun).
  exists p, {| spi := Some spi; cs := Some p; value_read := None |}, w'.
  split; [exact Hrun|]. split; [reflexivity|]. split; [reflexivity|].
  split; [reflexivity|]. split; [reflexivity|].
  intros ops. unfold execution. rewrite log_pbind, Hrun. cbn.
  rewrite log_pbind. cbn. now rewrite app_nil_r.
Qed.

Lemma construction_sequence_witness :
  exists p self w',
    run sram (mb_23LC1024 (SPI 0) 1) (power_up 1 0)
    = (construction_log (SPI 0) 1 p, Ok self, w') /\
    self = {| spi := Some (SPI 0); cs := Some p; value_read := None |} /\
    map ev_call (construction_log (SPI 0) 1 p)
    = [Pin 1 OUT;
       pin_value p 1; pin_value p 0; pin_value p 1;
       pin_value p 0; spi_write (SPI 0) [x01; x00]; pin_value p 1;
       sleep_us 50] /\
    map byte_to_Z [x01; x00] = [_WRMR; _MODE_BYTE] /\
    _MODE_BYTE = 0 /\
    forall ops,
      log_of (run sram (execution (SPI 0) 1 ops) (power_up 1 0))
      = construction_log (SPI 0) 1 p
          ++ log_of (run sram (invoke_all ops self) w').
Proof.
  apply (construction_sequence sram (power_up 1 0) (SPI 0) 1 sram_reliable).
Defined.

(** The simulated chip is in byte mode, with /CS high, once the device
    is constructed. *)
Example constructed_board :
  let w := world_of (run sram (mb_23LC1024 (SPI 0) 1) (power_up 1 0)) in
  mode (sram_chip w) = ByteMode /\ cs_high w = true /\
  value_of (run sram (mb_23LC1024 (SPI 0) 1) (power_up 1 0)) = Ok memory.
Proof. repeat split. Qed.

(* ===================================================================== *)
(** ** Every path of the methods, on any transport *)
(* ===================================================================== *)

(** Case analysis along a run: each check, each attribute, each buffer
    and each answer of the transport. *)
Ltac paths h :=
  repeat (cbn;
    match goal with
    | |- context [h ?c ?w] =>
        let r := fresh "r" in
        let w' := fresh "w" in
        let E := fresh "E" in
        destruct (h c w) as [[r|?] w'] eqn:E; try (cbn in r)
    | |- context [match bytearray ?l with _ => _ end] =>
        let E := fresh "Hbuf" in destruct (bytearray l) eqn:E
    | |- context [match cs ?d with _ => _ end] =>
        let E := fresh "Hcs" in destruct (cs d) eqn:E
    | |- context [match spi ?d with _ => _ end] =>
        let E := fresh "Hspi" in destruct (spi d) eqn:E
    | |- context [when ?b _] =>
        let E := fresh "Hcheck" in destruct b eqn:E
    end); cbn.

(* ===================================================================== *)
(** ** The attributes of the device *)
(* ===================================================================== *)

(** [read_byte] keeps what it read: after construction and one
    [read_byte(0)] the device has an attribute it did not have. *)
Lemma read_byte_stores_value :
  exists self w self',
    run sram (mb_23LC1024 (SPI 0) 1) (power_up 1 0)
    = (construction_log (SPI 0) 1 (PinObj 1), Ok self, w) /\
    snd (value_of (run sram (read_byte 0 self) w)) = self' /\
    value_read self = None /\
    value_read self' = Some (VInt 0) /\
    self' <> self.
Proof.
  eexists. eexists. eexists.
  split; [reflexivity|]. split; [reflexivity|].
  split; [reflexivity|]. split; [reflexivity|]. discriminate.
Qed.

(** C7, as the code has it. The bus handle and the /CS pin of the
    device never change: [write_byte] leaves every attribute as it was,
    on every path; [read_byte] leaves [spi] and [cs] as they were, and
    when it returns a value, that value is in [value_read]. *)
Theorem methods_keep_handles {W} (h : transport W) (w : W)
    (self : device) (a v : Z) :
  snd (value_of (run h (write_byte a v self) w)) = self /\
  spi (snd (value_of (run h (read_byte a self) w))) = spi self /\
  cs (snd (value_of (run h (read_byte a self) w))) = cs self /\
  forall x,
    fst (value_of (run h (read_byte a self) w)) = Ok x ->
    value_read (snd (value_of (run h (read_byte a self) w))) = Some x.
Proof.
  split; [|split; [|split]].
  - unfold write_byte. paths h; reflexivity.
  - unfold read_byte. paths h; congruence.
  - unfold read_byte. paths h; congruence.
  - unfold read_byte. paths h; intros x Hx; try discriminate Hx.
    now injection Hx as <-.
Qed.

(* ===================================================================== *)
(** ** The instructions on the bus *)
(* ===================================================================== *)

Section Opcodes.

Lemma byte_of_int_inv x b : byte_of_int x = Some b -> byte_to_Z b = x.
Proof.
  unfold byte_of_int. destruct (Z.ltb_spec x 0); [discriminate|].
  intros E. apply Byte.to_of_N in E. unfold byte_to_Z. rewrite E. lia.
Qed.

Lemma bytearray_head x l buf :
  bytearray (x :: l) = Ok buf ->
  exists b bs, buf = b :: bs /\ byte_to_Z b = x.
Proof.
  unfold bytearray; fold bytearray.
  destruct (byte_of_int x) as [b|] eqn:E; [|discriminate].
  destruct (bytearray l) as [bs|]; [|discriminate].
  intros [= <-]. exists b, bs. split; [reflexivity|].
  now apply byte_of_int_inv.
Qed.

Lemma framed_nil : framed [].
Proof. split; [constructor | reflexivity]. Qed.

Lemma reads_follow_header_app prev t1 t2 :
  reads_follow_header prev t1 = true ->
  (forall prev', reads_follow_header prev' t2 = true) ->
  reads_follow_header prev (t1 ++ t2) = true.
Proof.
  revert prev. induction t1 as [|c t1 IH]; intros prev H1 H2; cbn in *.
  - apply H2.
  - apply andb_true_iff in H1 as [Hc H1].
    rewrite Hc. cbn. now apply IH.
Qed.

Lemma framed_app t1 t2 : framed t1 -> framed t2 -> framed (t1 ++ t2).
Proof.
  intros [F1 R1] [F2 R2]. split.
  - apply Forall_app. now split.
  - intros prev. now apply reads_follow_header_app.
Qed.

Context {W : Type} (h : transport W).

Ltac head_of H :=
  apply bytearray_head in H; destruct H as (? & ? & -> & H).

Ltac check_frame :=
  split; [repeat constructor | intros prev]; cbn;
  repeat match goal with
         | H : byte_to_Z _ = _ |- _ => rewrite H
         end; reflexivity.

Lemma write_byte_framed w self a v :
  framed (calls_of (run h (write_byte a v self) w)).
Proof.
  unfold write_byte. paths h; try head_of Hbuf; check_frame.
Qed.

Lemma read_byte_framed w self a :
  framed (calls_of (run h (read_byte a self) w)).
Proof.
  unfold read_byte. paths h; try head_of Hbuf; check_frame.
Qed.

Lemma construction_framed w spi cs :
  framed (calls_of (run h (mb_23LC1024 spi cs) w)).
Proof.
  unfold mb_23LC1024, __init__. cbn. rewrite mode_buffer.
  paths h; check_frame.
Qed.

Lemma calls_pbind {A B} (p : prog A) (f : A -> prog B) (w : W) :
  calls_of (run h (pbind p f) w) =
  calls_of (run h p w)
    ++ calls_of (run h (f (value_of (run h p w))) (world_of (run h p w))).
Proof. unfold calls_of. now rewrite log_pbind, map_app. Qed.

Lemma invoke_framed w self o :
  framed (calls_of (run h (invoke o self) w)).
Proof.
  destruct o as [a v|a]; unfold invoke, bind; rewrite calls_pbind.
  - apply framed_app; [apply write_byte_framed|].
    destruct (value_of (run h (write_byte a v self) w)) as [[[]|e] d];
      apply framed_nil.
  - apply framed_app; [apply read_byte_framed|].
    destruct (value_of (run h (read_byte a self) w)) as [[x|e] d];
      apply framed_nil.
Qed.

Lemma invoke_all_framed ops : forall w self,
  framed (calls_of (run h (invoke_all ops self) w)).
Proof.
  induction ops as [|o ops IH]; intros w self; cbn [invoke_all].
  - apply framed_nil.
  - rewrite calls_pbind. apply framed_app; [apply invoke_framed|].
    destruct (value_of (run h (invoke o self) w)) as [r d].
    rewrite calls_pbind. apply framed_app; [apply IH|].
    destruct (value_of (run h (invoke_all ops d) _)) as [rs d'].
    apply framed_nil.
Qed.

Lemma execution_framed w spi cs ops :
  framed (calls_of (run h (execution spi cs ops) w)).
Proof.
  unfold execution. rewrite calls_pbind.
  apply framed_app; [apply construction_framed|].
  destruct (value_of (run h (mb_23LC1024 spi cs) w)) as [d|e].
  - rewrite calls_pbind. apply framed_app; [apply invoke_all_framed|].
    apply framed_nil.
  - apply framed_nil.
Qed.

End Opcodes.

(** C8. In every execution (construction, then any sequence of
    [write_byte] and [read_byte] calls), on any transport, every bus
    write starts with 0x01 (WRMR), 0x02 (WRITE) or 0x03 (READ), hence
    with none of EDIO (0x3B), EQIO (0x38), RSTIO (0xFF), RDMR (0x05);
    and a bus read only ever follows a READ header, so no transaction
    starts otherwise. *)
Theorem only_three_instructions {W} (h : transport W) (w : W)
    (spi : spi_obj) (cs : Z) (ops : list op) :
  (forall s buf,
     In (spi_write s buf) (calls_of (run h (execution spi cs ops) w)) ->
     exists b rest,
       buf = b :: rest /\
       (byte_to_Z b = 0x01 \/ byte_to_Z b = 0x02 \/ byte_to_Z b = 0x03) /\
       byte_to_Z b <> _EDIO /\ byte_to_Z b <> _EQIO /\
       byte_to_Z b <> _RSTIO /\ byte_to_Z b <> _RDMR) /\
  reads_follow_header None (calls_of (run h (execution spi cs ops) w))
  = true.
Proof.
  destruct (execution_framed h w spi cs ops) as [Hknown Hreads].
  split; [|apply Hreads].
  intros s buf Hin.
  rewrite List.Forall_forall in Hknown. specialize (Hknown _ Hin).
  destruct buf as [|b rest]; [discriminate Hknown|].
  exists b, rest. split; [reflexivity|].
  cbn in Hknown. unfold _WRMR, _WRITE, _READ, const in Hknown.
  assert (Hb : byte_to_Z b = 1 \/ byte_to_Z b = 2 \/ byte_to_Z b = 3).
  { apply orb_true_iff in Hknown as [Hknown|Hknown];
      [apply orb_true_iff in Hknown as [Hknown|Hknown]|];
      apply Z.eqb_eq in Hknown; auto. }
  split; [exact Hb|].
  unfold _EDIO, _EQIO, _RSTIO, _RDMR, const. lia.
Qed.

(* ===================================================================== *)
(** ** One deterministic attempt *)
(* ===================================================================== *)

Section Determinism.

Context {W1 W2 : Type} (h1 : transport W1) (h2 : transport W2).
Context (R : W1 -> W2 -> Prop).
Hypothesis Hagree : agree R h1 h2.

Lemma run_agree {A} (p : prog A) : forall w1 w2,
  R w1 w2 ->
  same_run h1 h2 p w1 w2 /\
  R (world_of (run h1 p w1)) (world_of (run h2 p w2)).
Proof.
  unfold same_run.
  induction p as [a|c k IH]; intros w1 w2 Hw; cbn.
  - auto.
  - destruct (Hagree c w1 w2 Hw) as [Hr Hw'].
    destruct (h1 c w1) as [r1 w1'], (h2 c w2) as [r2 w2']. cbn in *.
    subst r2. specialize (IH r1 w1' w2' Hw').
    destruct (run h1 (k r1) w1') as [[t1 a1] w1''].
    destruct (run h2 (k r1) w2') as [[t2 a2] w2''].
    cbn in *. destruct IH as [[-> ->] HR]. auto.
Qed.

End Determinism.

Section SingleAttempt.

Context {W : Type} (h : transport W).

Ltac one_attempt :=
  repeat split; cbn; try lia;
  intros ? [=]; subst; reflexivity.

Lemma write_byte_single_attempt w self a v :
  single_attempt (log_of (run h (write_byte a v self) w))
    (raised (fst (value_of (run h (write_byte a v self) w)))) /\
  (count is_cs_low (log_of (run h (write_byte a v self) w)) <= 1)%nat.
Proof. unfold write_byte. paths h; one_attempt. Qed.

Lemma read_byte_single_attempt w self a :
  single_attempt (log_of (run h (read_byte a self) w))
    (raised (fst (value_of (run h (read_byte a self) w)))) /\
  (count is_cs_low (log_of (run h (read_byte a self) w)) <= 1)%nat.
Proof. unfold read_byte. paths h; one_attempt. Qed.

Lemma construction_single_attempt w spi cs :
  single_attempt (log_of (run h (mb_23LC1024 spi cs) w))
    (raised (value_of (run h (mb_23LC1024 spi cs) w))).
Proof.
  unfold mb_23LC1024, __init__. cbn. rewrite mode_buffer.
  paths h; one_attempt.
Qed.

End SingleAttempt.

Lemma metered_agrees : agree (fun w x => w = fst x) sram metered.
Proof.
  intros c w [w2 n] ->. unfold metered. cbn.
  destruct (sram c w2) as [r w']. split; reflexivity.
Qed.

(** C9. Each operation is one deterministic attempt.  Two runs of
    [write_byte], of [read_byte] or of the construction, with the same
    arguments, on transports that answer alike, make the same calls,
    get the same answers, and end with the same value or exception.  On
    any transport each operation writes to the bus at most once and
    reads from it at most once, drives /CS low at most once in a
    method, makes no call after one that raised, and ends with the
    exception of that call: nothing is retried. *)
Theorem single_deterministic_attempt {W1 W2}
    (h1 : transport W1) (h2 : transport W2) (R : W1 -> W2 -> Prop)
    (w1 : W1) (w2 : W2) (self : device) (spi : spi_obj) (cs a v : Z) :
  agree R h1 h2 -> R w1 w2 ->
  (same_run h1 h2 (write_byte a v self) w1 w2 /\
   same_run h1 h2 (read_byte a self) w1 w2 /\
   same_run h1 h2 (mb_23LC1024 spi cs) w1 w2) /\
  (single_attempt (log_of (run h1 (write_byte a v self) w1))
     (raised (fst (value_of (run h1 (write_byte a v self) w1)))) /\
   (count is_cs_low (log_of (run h1 (write_byte a v self) w1)) <= 1)%nat) /\
  (single_attempt (log_of (run h1 (read_byte a self) w1))
     (raised (fst (value_of (run h1 (read_byte a self) w1)))) /\
   (count is_cs_low (log_of (run h1 (read_byte a self) w1)) <= 1)%nat) /\
  single_attempt (log_of (run h1 (mb_23LC1024 spi cs) w1))
    (raised (value_of (run h1 (mb_23LC1024 spi cs) w1))).
Proof.
  intros Hagree Hw.
  split; [|split; [|split]].
  - repeat split; apply (run_agree h1 h2 R Hagree); exact Hw.
  - apply write_byte_single_attempt.
  - apply read_byte_single_attempt.
  - apply construction_single_attempt.
Qed.

Lemma single_deterministic_attempt_witness :
  (same_run sram metered (write_byte 0 255 memory)
     (power_up 1 0) (power_up 1 0, 0%nat) /\
   same_run sram metered (read_byte 0 memory)
     (power_up 1 0) (power_up 1 0, 0%nat) /\
   same_run sram metered (mb_23LC1024 (SPI 0) 1)
     (power_up 1 0) (power_up 1 0, 0%nat)) /\
  (single_attempt
     (log_of (run sram (write_byte 0 255 memory) (power_up 1 0)))
     (raised (fst (value_of
        (run sram (write_byte 0 255 memory) (power_up 1 0))))) /\
   (count is_cs_low
      (log_of (run sram (write_byte 0 255 memory) (power_up 1 0))) <= 1)%nat) /\
  (single_attempt
     (log_of (run sram (read_byte 0 memory) (power_up 1 0)))
     (raised (fst (value_of
        (run sram (read_byte 0 memory) (power_up 1 0))))) /\
   (count is_cs_low
      (log_of (run sram (read_byte 0 memory) (power_up 1 0))) <= 1)%nat) /\
  single_attempt
    (log_of (run sram (mb_23LC1024 (SPI 0) 1) (power_up 1 0)))
    (raised (value_of (run sram (mb_23LC1024 (SPI 0) 1) (power_up 1 0)))).
Proof.
  apply (single_deterministic_attempt sram metered
           (fun w x => w = fst x) (power_up 1 0) (power_up 1 0, 0%nat)
           memory (SPI 0) 1 0 255 metered_agrees eq_refl).
Defined.

(* ===================================================================== *)
(** ** The round trip through the simulated chip *)
(* ===================================================================== *)

Section Chip.

Lemma cell_first m a : 0 <= a <= 131071 -> cell m a 0 = Some a.
Proof.
  intros Ha. destruct m; cbn; f_equal.
  - rewrite Z.add_0_r. Z.div_mod_to_equations. lia.
  - rewrite Z.add_0_r. apply Z.mod_small. lia.
Qed.

(** The WRITE instruction, three address bytes, one data byte. *)
Lemma clock_in_write c b0 b1 b2 b3 b4 a :
  byte_to_Z b0 = _WRITE ->
  byte_to_Z b1 * 65536 + byte_to_Z b2 * 256 + byte_to_Z b3 = a ->
  0 <= a <= 131071 ->
  clock_in (select c) [b0; b1; b2; b3; b4]
  = {| mem := <[a := b4]> (mem c); mode := mode c;
       state := Transfer Writing a 1 |}.
Proof.
  intros H0 Ha Hr. unfold clock_in, select. cbn [fold_left].
  unfold clock at 5. cbn [state mem mode fst]. rewrite H0.
  cbn [Z.eqb _WRITE _WRMR const Pos.eqb].
  unfold clock at 4. cbn [state mem mode fst].
  unfold clock at 3. cbn [state mem mode fst].
  unfold clock at 2. cbn [state mem mode fst].
  replace (((0 * 256 + byte_to_Z b1) * 256 + byte_to_Z b2) * 256
           + byte_to_Z b3) with a by lia.
  rewrite (Z.mod_small a 131072) by lia.
  unfold clock. cbn [state mem mode fst].
  now rewrite (cell_first _ a Hr).
Qed.

(** The READ instruction and three address bytes, then one byte out. *)
Lemma clock_in_read c b0 b1 b2 b3 a :
  byte_to_Z b0 = _READ ->
  byte_to_Z b1 * 65536 + byte_to_Z b2 * 256 + byte_to_Z b3 = a ->
  0 <= a <= 131071 ->
  clock_in (select c) [b0; b1; b2; b3]
  = {| mem := mem c; mode := mode c; state := Transfer Reading a 0 |}.
Proof.
  intros H0 Ha Hr. unfold clock_in, select. cbn [fold_left].
  unfold clock at 4. cbn [state mem mode fst]. rewrite H0.
  cbn [Z.eqb _READ _WRITE _WRMR const Pos.eqb].
  unfold clock at 3. cbn [state mem mode fst].
  unfold clock at 2. cbn [state mem mode fst].
  unfold clock. cbn [state mem mode fst].
  replace (((0 * 256 + byte_to_Z b1) * 256 + byte_to_Z b2) * 256
           + byte_to_Z b3) with a by lia.
  now rewrite (Z.mod_small a 131072) by lia.
Qed.

Lemma clock_out_one c a :
  0 <= a <= 131071 ->
  state c = Transfer Reading a 0 ->
  clock_out 1 c
  = ({| mem := mem c; mode := mode c; state := Transfer Reading a 1 |},
     [peek c a]).
Proof.
  intros Hr Hs. cbn [clock_out]. unfold clock. rewrite Hs.
  now rewrite (cell_first _ a Hr).
Qed.

End Chip.

Section RoundTrip.

Arguments sram : simpl never.
Arguments clock_in : simpl never.
Arguments clock_out : simpl never.
Arguments select : simpl never.

Lemma sram_cs w g x :
  g = cs_gpio w ->
  sram (pin_value (PinObj g) x) w = (Ok tt, set_level w x).
Proof. intros ->. unfold sram. cbn. now rewrite Z.eqb_refl. Qed.

Lemma sram_write_selected w port buf :
  port = spi_bus w -> cs_high w = false ->
  sram (spi_write (SPI port) buf) w
  = (Ok tt, with_chip w (clock_in (sram_chip w) buf)).
Proof.
  intros -> H. unfold sram, selected. cbn. now rewrite Z.eqb_refl, H.
Qed.

Lemma sram_read_selected w port n :
  port = spi_bus w -> cs_high w = false ->
  sram (spi_read (SPI port) n) w
  = (Ok (snd (clock_out (Z.to_nat n) (sram_chip w))),
     with_chip w (fst (clock_out (Z.to_nat n) (sram_chip w)))).
Proof.
  intros -> H. unfold sram, selected. cbn. rewrite Z.eqb_refl, H. cbn.
  now destruct (clock_out (Z.to_nat n) (sram_chip w)).
Qed.

(** /CS goes low on an idle board: the chip awaits an instruction. *)
Lemma set_level_low w :
  cs_high w = true ->
  set_level w 0
  = {| cs_gpio := cs_gpio w; spi_bus := spi_bus w; cs_high := false;
       sram_chip := select (sram_chip w) |}.
Proof. intros H. unfold set_level. now rewrite H. Qed.

Lemma write_byte_stores w self a v :
  attached w self ->
  0 <= a <= 131071 -> 0 <= v <= 255 ->
  exists b,
    byte_to_Z b = v /\
    value_of (run sram (write_byte a v self) w) = (Ok tt, self) /\
    attached (world_of (run sram (write_byte a v self) w)) self /\
    mem (sram_chip (world_of (run sram (write_byte a v self) w)))
    = <[a := b]> (mem (sram_chip w)).
Proof.
  intros (Hcs & Hspi & Hhigh) Ha Hv.
  destruct (write_buffer a v Ha Hv) as [buf [Hbuf Hmap]].
  destruct buf as [|b0 [|b1 [|b2 [|b3 [|b4 [|? ?]]]]]];
    try discriminate Hmap.
  injection Hmap as H0 H1 H2 H3 H4.
  exists b4. split; [exact H4|].
  assert (Hdigits : byte_to_Z b1 * 65536 + byte_to_Z b2 * 256
                    + byte_to_Z b3 = a)
    by (rewrite H1, H2, H3; Z.div_mod_to_equations; lia).
  unfold write_byte.
  rewrite (range_check_false a 131071 Ha), (range_check_false v 255 Hv).
  cbn. unfold self_cs, self_spi. rewrite Hcs, Hspi, Hbuf. cbn.
  rewrite sram_cs by reflexivity. cbn.
  rewrite (set_level_low w Hhigh).
  rewrite sram_write_selected by reflexivity. cbn.
  rewrite sram_cs by reflexivity. cbn.
  rewrite (clock_in_write _ b0 b1 b2 b3 b4 a H0 Hdigits Ha).
  repeat split; assumption.
Qed.

Lemma read_byte_fetches w self a :
  attached w self ->
  0 <= a <= 131071 ->
  let r := run sram (read_byte a self) w in
  fst (value_of r) = Ok (VInt (byte_to_Z (peek (sram_chip w) a))) /\
  attached (world_of r) (snd (value_of r)) /\
  mem (sram_chip (world_of r)) = mem (sram_chip w).
Proof.
  intros (Hcs & Hspi & Hhigh) Ha.
  destruct (read_buffer a Ha) as [buf [Hbuf Hmap]].
  destruct buf as [|b0 [|b1 [|b2 [|b3 [|? ?]]]]];
    try discriminate Hmap.
  injection Hmap as H0 H1 H2 H3.
  assert (Hdigits : byte_to_Z b1 * 65536 + byte_to_Z b2 * 256
                    + byte_to_Z b3 = a)
    by (rewrite H1, H2, H3; Z.div_mod_to_equations; lia).
  unfold read_byte.
  rewrite (range_check_false a 131071 Ha).
  cbn. unfold self_cs, self_spi. rewrite Hcs, Hspi, Hbuf. cbn.
  rewrite sram_cs by reflexivity. cbn.
  rewrite (set_level_low w Hhigh).
  rewrite sram_write_selected by reflexivity. cbn.
  rewrite (clock_in_read _ b0 b1 b2 b3 a H0 Hdigits Ha).
  rewrite sram_read_selected by reflexivity. cbn.
  rewrite (clock_out_one _ a Ha) by reflexivity. cbn.
  rewrite sram_cs by reflexivity. cbn.
  repeat split; assumption.
Qed.

Lemma value_invoke_write w self a v :
  run sram (invoke (write_op a v) self) w
  = (log_of (run sram (write_byte a v self) w),
     (match fst (value_of (run sram (write_byte a v self) w)) with
      | Ok _ => Ok None
      | Err e => Err e
      end, snd (value_of (run sram (write_byte a v self) w))),
     world_of (run sram (write_byte a v self) w)).
Proof.
  unfold invoke, bind. rewrite run_pbind.
  destruct (run sram (write_byte a v self) w) as [[t [[[]|e] d]] w'];
    cbn; now rewrite app_nil_r.
Qed.

Lemma value_invoke_read w self a :
  run sram (invoke (read_op a) self) w
  = (log_of (run sram (read_byte a self) w),
     (match fst (value_of (run sram (read_byte a self) w)) with
      | Ok x => Ok (Some x)
      | Err e => Err e
      end, snd (value_of (run sram (read_byte a self) w))),
     world_of (run sram (read_byte a self) w)).
Proof.
  unfold invoke, bind. rewrite run_pbind.
  destruct (run sram (read_byte a self) w) as [[t [[x|e] d]] w'];
    cbn; now rewrite app_nil_r.
Qed.

(** A call that is not a write to [a] leaves the cell [a] alone, and
    leaves the board ready for the next call. *)
Lemma invoke_keeps_cell w self o a :
  attached w self ->
  (forall v, o <> write_op a v) ->
  attached (world_of (run sram (invoke o self) w))
           (snd (value_of (run sram (invoke o self) w))) /\
  peek (sram_chip (world_of (run sram (invoke o self) w))) a
  = peek (sram_chip w) a.
Proof.
  intros Hatt Hother. destruct o as [a' v'|a'].
  - rewrite value_invoke_write. cbn [world_of value_of fst snd].
    destruct (decide (0 <= a' <= 131071)) as [Ha'|Ha'];
      [destruct (decide (0 <= v' <= 255)) as [Hv'|Hv']|].
    + destruct (write_byte_stores w self a' v' Hatt Ha' Hv')
        as (b & _ & Hval & Hatt' & Hmem).
      rewrite Hval. cbn [snd]. split; [exact Hatt'|].
      unfold peek. rewrite Hmem. rewrite lookup_insert_ne; [reflexivity|].
      intros ->. now apply (Hother v').
    + rewrite (write_byte_bad_data sram w self a' v' Ha' Hv'). now cbn.
    + rewrite (write_byte_bad_address sram w self a' v' Ha'). now cbn.
  - rewrite value_invoke_read. cbn [world_of value_of fst snd].
    destruct (decide (0 <= a' <= 131071)) as [Ha'|Ha'].
    + destruct (read_byte_fetches w self a' Hatt Ha')
        as (_ & Hatt' & Hmem).
      split; [exact Hatt'|]. unfold peek. now rewrite Hmem.
    + rewrite (read_byte_bad_address sram w self a' Ha'). now cbn.
Qed.

Lemma invoke_all_keeps_cell ops a : forall w self,
  attached w self ->
  (forall v, ~ In (write_op a v) ops) ->
  attached (world_of (run sram (invoke_all ops self) w))
           (snd (value_of (run sram (invoke_all ops self) w))) /\
  peek (sram_chip (world_of (run sram (invoke_all ops self) w))) a
  = peek (sram_chip w) a.
Proof.
  induction ops as [|o ops IH]; intros w self Hatt Hother;
    cbn [invoke_all].
  - now cbn.
  - assert (Ho : forall v, o <> write_op a v)
      by (intros v ->; apply (Hother v); now left).
    assert (Hops : forall v, ~ In (write_op a v) ops)
      by (intros v Hin; apply (Hother v); now right).
    destruct (invoke_keeps_cell w self o a Hatt Ho) as [Hatt1 Hcell1].
    rewrite !run_pbind.
    destruct (run sram (invoke o self) w) as [[t1 [r1 d1]] w1].
    cbn [world_of value_of fst snd] in Hatt1, Hcell1.
    rewrite run_pbind.
    destruct (IH w1 d1 Hatt1 Hops) as [Hatt2 Hcell2].
    destruct (run sram (invoke_all ops d1) w1) as [[t2 [rs d2]] w2].
    cbn in *. split; [exact Hatt2|]. now rewrite Hcell2.
Qed.

(** Construction on a board wired to the given pin and port leaves
    the device attached to the chip. *)
Lemma construction_attaches w :
  exists self,
    value_of (run sram (mb_23LC1024 (SPI (spi_bus w)) (cs_gpio w)) w)
    = Ok self /\
    attached
      (world_of (run sram (mb_23LC1024 (SPI (spi_bus w)) (cs_gpio w)) w))
      self.
Proof.
  eexists. unfold mb_23LC1024, __init__. cbn. rewrite mode_buffer. cbn.
  change (sram (Pin (cs_gpio w) OUT) w)
    with (Ok (PinObj (cs_gpio w)), w). cbn.
  do 4 (rewrite sram_cs by reflexivity; cbn).
  rewrite sram_write_selected by reflexivity. cbn.
  rewrite sram_cs by reflexivity. cbn.
  match goal with
  | |- context [sram (sleep_us 50) ?x] =>
      change (sram (sleep_us 50) x) with (@Ok unit tt, x)
  end. cbn.
  split; [reflexivity|]. repeat split.
Qed.

End RoundTrip.

(** C1. With the chip as a byte-addressed store behind the bus: for
    every address [a] in [0, 131071] and value [v] in [0, 255],
    [write_byte(a, v)], then any calls of the driver none of which is a
    write to [a], then [read_byte(a)], returns [v]. *)
Theorem write_then_read (w : board) (self : device) (a v : Z)
    (ops : list op) :
  attached w self ->
  0 <= a <= 131071 -> 0 <= v <= 255 ->
  (forall v', ~ In (write_op a v') ops) ->
  let r1 := run sram (write_byte a v self) w in
  let r2 := run sram (invoke_all ops (snd (value_of r1))) (world_of r1) in
  let r3 := run sram (read_byte a (snd (value_of r2))) (world_of r2) in
  fst (value_of r1) = Ok tt /\
  fst (value_of r3) = Ok (VInt v).
Proof.
  intros Hatt Ha Hv Hother r1 r2 r3.
  destruct (write_byte_stores w self a v Hatt Ha Hv)
    as (b & Hb & Hval & Hatt1 & Hmem).
  fold r1 in Hval, Hatt1, Hmem.
  split; [now rewrite Hval|].
  assert (Hcell1 : peek (sram_chip (world_of r1)) a = b).
  { unfold peek. rewrite Hmem. now rewrite lookup_insert_eq. }
  assert (Hself : snd (value_of r1) = self) by now rewrite Hval.
  rewrite <- Hself in Hatt1.
  destruct (invoke_all_keeps_cell ops a _ _ Hatt1 Hother)
    as [Hatt2 Hcell2].
  fold r2 in Hatt2, Hcell2.
  destruct (read_byte_fetches _ _ a Hatt2 Ha) as (Hread & _).
  fold r3 in Hread. rewrite Hread, Hcell2, Hcell1, Hb. reflexivity.
Qed.

Lemma write_then_read_witness :
  let w := world_of (run sram (mb_23LC1024 (SPI 0) 1) (power_up 1 0)) in
  let r1 := run sram (write_byte 131071 38 memory) w in
  let r2 := run sram (invoke_all [write_op 0 255; read_op 0]
                        (snd (value_of r1))) (world_of r1) in
  let r3 := run sram (read_byte 131071 (snd (value_of r2))) (world_of r2) in
  fst (value_of r1) = Ok tt /\
  fst (value_of r3) = Ok (VInt 38).
Proof.
  apply (write_then_read
           (world_of (run sram (mb_23LC1024 (SPI 0) 1) (power_up 1 0)))
           memory 131071 38 [write_op 0 255; read_op 0]).
  - repeat split.
  - lia.
  - lia.
  - intros v' [H|[H|[]]]; discriminate H.
Defined.

(** The script of the example file: 38 is read back from 131071 and
    255 from 0. *)
Example example_script :
  value_of (run sram example (power_up 1 0))
  = Ok ([Ok None; Ok None; Ok (Some (VInt 38)); Ok (Some (VInt 255))],
        {| spi := Some (SPI 0); cs := Some (PinObj 1);
           value_read := Some (VInt 255) |}).
Proof. vm_compute. reflexivity. Qed.

(* ===================================================================== *)
(** * Further properties of the driver *)
(* ===================================================================== *)

(* ===================================================================== *)
(** ** The driver over the simulated chip is a dictionary of bytes *)
(* ===================================================================== *)

Section Store.

Arguments sram : simpl never.
Arguments clock_in : simpl never.
Arguments clock_out : simpl never.
Arguments select : simpl never.

Lemma clock_in_mode c :
  clock_in (select c) [x01; x00]
  = {| mem := mem c; mode := ByteMode; state := Ignoring |}.
Proof. reflexivity. Qed.

Lemma set_level_high_low w :
  set_level (set_level w 1) 0
  = {| cs_gpio := cs_gpio w; spi_bus := spi_bus w; cs_high := false;
       sram_chip := select (sram_chip w) |}.
Proof.
  unfold set_level. cbn. now rewrite andb_false_r.
Qed.

Lemma select_select c : select (select c) = select c.
Proof. reflexivity. Qed.

(** The whole run of the constructor on the board it is wired to. *)
Lemma construction_world w :
  run sram (mb_23LC1024 (SPI (spi_bus w)) (cs_gpio w)) w
  = (construction_log (SPI (spi_bus w)) (cs_gpio w) (PinObj (cs_gpio w)),
     Ok {| spi := Some (SPI (spi_bus w));
           cs := Some (PinObj (cs_gpio w)); value_read := None |},
     idle w (mem (sram_chip w)) ByteMode Ignoring).
Proof.
  unfold mb_23LC1024, __init__. cbn. rewrite mode_buffer. cbn.
  change (sram (Pin (cs_gpio w) OUT) w)
    with (Ok (PinObj (cs_gpio w)), w). cbn.
  rewrite sram_cs by reflexivity. cbn.
  rewrite sram_cs by reflexivity. cbn.
  rewrite set_level_high_low.
  rewrite sram_cs by reflexivity. cbn.
  rewrite sram_cs by reflexivity. cbn.
  rewrite sram_write_selected by reflexivity. cbn.
  rewrite select_select, clock_in_mode.
  rewrite sram_cs by reflexivity. cbn.
  match goal with
  | |- context [sram (sleep_us 50) ?x] =>
      change (sram (sleep_us 50) x) with (@Ok unit tt, x)
  end.
  reflexivity.
Qed.

(** The whole effect of a valid [write_byte] on an attached board. *)
Lemma write_byte_world w self a v :
  attached w self ->
  0 <= a <= 131071 -> 0 <= v <= 255 ->
  exists b,
    byte_of_int v = Some b /\
    value_of (run sram (write_byte a v self) w) = (Ok tt, self) /\
    world_of (run sram (write_byte a v self) w)
    = idle w (<[a := b]> (mem (sram_chip w))) (mode (sram_chip w))
        (Transfer Writing a 1).
Proof.
  intros (Hcs & Hspi & Hhigh) Ha Hv.
  destruct (write_buffer a v Ha Hv) as [buf [Hbuf Hmap]].
  destruct buf as [|b0 [|b1 [|b2 [|b3 [|b4 [|? ?]]]]]];
    try discriminate Hmap.
  injection Hmap as H0 H1 H2 H3 H4.
  exists b4. split.
  { destruct (byte_of_int_Some v) as (b & Hb & Hbv); [lia|].
    rewrite Hb. f_equal. apply byte_to_Z_inj. congruence. }
  assert (Hdigits : byte_to_Z b1 * 65536 + byte_to_Z b2 * 256
                    + byte_to_Z b3 = a)
    by (rewrite H1, H2, H3; Z.div_mod_to_equations; lia).
  unfold write_byte.
  rewrite (range_check_false a 131071 Ha), (range_check_false v 255 Hv).
  cbn. unfold self_cs, self_spi. rewrite Hcs, Hspi, Hbuf. cbn.
  rewrite sram_cs by reflexivity. cbn.
  rewrite (set_level_low w Hhigh).
  rewrite sram_write_selected by reflexivity. cbn.
  rewrite sram_cs by reflexivity. cbn.
  rewrite (clock_in_write _ b0 b1 b2 b3 b4 a H0 Hdigits Ha).
  split; reflexivity.
Qed.

(** The whole effect of a valid [read_byte] on an attached board. *)
Lemma read_byte_world w self a :
  attached w self ->
  0 <= a <= 131071 ->
  fst (value_of (run sram (read_byte a self) w))
  = Ok (VInt (byte_to_Z (peek (sram_chip w) a))) /\
  attached w (snd (value_of (run sram (read_byte a self) w))) /\
  world_of (run sram (read_byte a self) w)
  = idle w (mem (sram_chip w)) (mode (sram_chip w)) (Transfer Reading a 1).
Proof.
  intros (Hcs & Hspi & Hhigh) Ha.
  destruct (read_buffer a Ha) as [buf [Hbuf Hmap]].
  destruct buf as [|b0 [|b1 [|b2 [|b3 [|? ?]]]]];
    try discriminate Hmap.
  injection Hmap as H0 H1 H2 H3.
  assert (Hdigits : byte_to_Z b1 * 65536 + byte_to_Z b2 * 256
                    + byte_to_Z b3 = a)
    by (rewrite H1, H2, H3; Z.div_mod_to_equations; lia).
  unfold read_byte.
  rewrite (range_check_false a 131071 Ha).
  cbn. unfold self_cs, self_spi. rewrite Hcs, Hspi, Hbuf. cbn.
  rewrite sram_cs by reflexivity. cbn.
  rewrite (set_level_low w Hhigh).
  rewrite sram_write_selected by reflexivity. cbn.
  rewrite (clock_in_read _ b0 b1 b2 b3 a H0 Hdigits Ha).
  rewrite sram_read_selected by reflexivity. cbn.
  rewrite (clock_out_one _ a Ha) by reflexivity. cbn.
  rewrite sram_cs by reflexivity. cbn.
  repeat split; assumption.
Qed.

Lemma attached_idle w self m md st :
  attached w self -> attached (idle w m md st) self.
Proof. intros (Hcs & Hspi & _). repeat split; assumption. Qed.

(** One call of the driver against one step of the dictionary. *)
Lemma invoke_store_step w self o :
  attached w self ->
  let r := run sram (invoke o self) w in
  fst (value_of r) = fst (store_step o (mem (sram_chip w))) /\
  mem (sram_chip (world_of r)) = snd (store_step o (mem (sram_chip w))) /\
  mode (sram_chip (world_of r)) = mode (sram_chip w) /\
  attached (world_of r) (snd (value_of r)).
Proof.
  intros Hatt r. subst r. destruct o as [a v|a].
  - rewrite value_invoke_write. cbn [world_of value_of fst snd store_step].
    destruct (decide (0 <= a <= 131071)) as [Ha|Ha];
      [destruct (decide (0 <= v <= 255)) as [Hv|Hv]|].
    + destruct (write_byte_world w self a v Hatt Ha Hv)
        as (b & Hb & Hval & Hw).
      rewrite Hval, Hw, Hb.
      rewrite (range_check_false a 131071 Ha), (range_check_false v 255 Hv).
      cbn. repeat split; apply Hatt.
    + rewrite (write_byte_bad_data sram w self a v Ha Hv).
      rewrite (range_check_false a 131071 Ha), (range_check_true v 255 Hv).
      cbn. repeat split; apply Hatt.
    + rewrite (write_byte_bad_address sram w self a v Ha).
      rewrite (range_check_true a 131071 Ha).
      cbn. repeat split; apply Hatt.
  - rewrite value_invoke_read. cbn [world_of value_of fst snd store_step].
    destruct (decide (0 <= a <= 131071)) as [Ha|Ha].
    + destruct (read_byte_world w self a Hatt Ha) as (Hval & Hatt' & Hw).
      rewrite Hval, Hw. rewrite (range_check_false a 131071 Ha).
      cbn. repeat split; apply Hatt'.
    + rewrite (read_byte_bad_address sram w self a Ha).
      rewrite (range_check_true a 131071 Ha).
      cbn. repeat split; apply Hatt.
Qed.


Lemma invoke_all_store_run ops : forall w self,
  attached w self ->
  let r := run sram (invoke_all ops self) w in
  fst (value_of r) = fst (store_run ops (mem (sram_chip w))) /\
  mem (sram_chip (world_of r)) = snd (store_run ops (mem (sram_chip w))) /\
  mode (sram_chip (world_of r)) = mode (sram_chip w) /\
  attached (world_of r) (snd (value_of r)).
Proof.
  induction ops as [|o ops IH]; intros w self Hatt; cbn [invoke_all store_run].
  - cbn. repeat split; apply Hatt.
  - destruct (invoke_store_step w self o Hatt) as (Hv1 & Hm1 & Hmd1 & Hatt1).
    cbn zeta. rewrite !run_pbind.
    destruct (run sram (invoke o self) w) as [[t1 [r1 d1]] w1].
    cbn [world_of value_of fst snd] in Hv1, Hm1, Hmd1, Hatt1.
    rewrite run_pbind.
    destruct (IH w1 d1 Hatt1) as (Hv2 & Hm2 & Hmd2 & Hatt2).
    destruct (run sram (invoke_all ops d1) w1) as [[t2 [rs d2]] w2].
    cbn [world_of value_of fst snd] in Hv2, Hm2, Hmd2, Hatt2.
    destruct (store_step o (mem (sram_chip w))) as [r m'].
    cbn [fst snd] in Hv1, Hm1. subst r m'.
    destruct (store_run ops (mem (sram_chip w1))) as [rs' m''].
    cbn [fst snd] in Hv2, Hm2. subst rs' m''.
    cbn. repeat split; try apply Hatt2. congruence.
Qed.

End Store.

(** X1. On the simulated board, whatever the level of /CS, the mode of
    the chip and the instruction it was in the middle of, constructing
    the device on the pin and the port the chip is wired to returns a
    device attached to the chip, leaves /CS high and the chip in byte
    mode, and changes no cell of the memory. *)
Theorem construction_resets_chip (w : board) :
  exists self,
    value_of (run sram (mb_23LC1024 (SPI (spi_bus w)) (cs_gpio w)) w)
    = Ok self /\
    attached
      (world_of (run sram (mb_23LC1024 (SPI (spi_bus w)) (cs_gpio w)) w))
      self /\
    world_of (run sram (mb_23LC1024 (SPI (spi_bus w)) (cs_gpio w)) w)
    = idle w (mem (sram_chip w)) ByteMode Ignoring.
Proof.
  rewrite construction_world. eexists.
  split; [reflexivity|]. split; [|reflexivity]. repeat split.
Qed.

(** X2. From a state where the device is attached to the simulated
    chip, any sequence of [write_byte] and [read_byte] calls gives the
    caller the results of the same operations on a dictionary from
    addresses to bytes: a write in range updates one key, a read in
    range looks one key up, a call out of range raises and changes
    nothing.  The memory of the chip ends as that dictionary, the mode
    of the chip is unchanged and the device stays attached. *)
Theorem driver_refines_store (ops : list op) (w : board) (self : device) :
  attached w self ->
  fst (value_of (run sram (invoke_all ops self) w))
  = fst (store_run ops (mem (sram_chip w))) /\
  mem (sram_chip (world_of (run sram (invoke_all ops self) w)))
  = snd (store_run ops (mem (sram_chip w))) /\
  mode (sram_chip (world_of (run sram (invoke_all ops self) w)))
  = mode (sram_chip w) /\
  attached (world_of (run sram (invoke_all ops self) w))
           (snd (value_of (run sram (invoke_all ops self) w))).
Proof. intros Hatt. exact (invoke_all_store_run ops w self Hatt). Qed.

Lemma driver_refines_store_witness :
  let ops := [write_op 7 300; write_op 7 9; read_op 7; read_op (-1)] in
  let w := idle (power_up 1 0) ∅ ByteMode Ignoring in
  fst (value_of (run sram (invoke_all ops memory) w))
  = fst (store_run ops (mem (sram_chip w))) /\
  mem (sram_chip (world_of (run sram (invoke_all ops memory) w)))
  = snd (store_run ops (mem (sram_chip w))) /\
  mode (sram_chip (world_of (run sram (invoke_all ops memory) w)))
  = mode (sram_chip w) /\
  attached (world_of (run sram (invoke_all ops memory) w))
           (snd (value_of (run sram (invoke_all ops memory) w))).
Proof.
  apply (driver_refines_store
           [write_op 7 300; write_op 7 9; read_op 7; read_op (-1)]
           (idle (power_up 1 0) ∅ ByteMode Ignoring) memory).
  repeat split.
Defined.

(** What the dictionary gives for that sequence. *)
Example store_run_example :
  fst (store_run [write_op 7 300; write_op 7 9; read_op 7; read_op (-1)] ∅)
  = [Err (ValueError
       "You can only pass an 8-bit data value (0-255) to this function");
     Ok None;
     Ok (Some (VInt 9));
     Err (ValueError
       "Address is outside of device address range (0 to 131071 (0x1ffff))")].
Proof. reflexivity. Qed.

(* ===================================================================== *)
(** ** The protocol on any transport *)
(* ===================================================================== *)

Section Protocol.

Context {W : Type} (h : transport W).

Lemma bytearray_map l : forall buf,
  bytearray l = Ok buf -> map byte_to_Z buf = l.
Proof.
  induction l as [|x l IH]; intros buf; unfold bytearray; fold bytearray.
  - now intros [= <-].
  - destruct (byte_of_int x) as [b|] eqn:E; [|discriminate].
    destruct (bytearray l) as [bs|]; [|discriminate].
    intros [= <-]. cbn. rewrite (byte_of_int_inv x b E). f_equal.
    now apply IH.
Qed.

(** A property of the calls of the constructor and of each method is a
    property of the calls of every execution. *)
Lemma execution_calls_Forall (P : call -> Prop) :
  (forall w spi cs, Forall P (calls_of (run h (mb_23LC1024 spi cs) w))) ->
  (forall w self a v, Forall P (calls_of (run h (write_byte a v self) w))) ->
  (forall w self a, Forall P (calls_of (run h (read_byte a self) w))) ->
  forall w spi cs ops,
    Forall P (calls_of (run h (execution spi cs ops) w)).
Proof.
  intros Hinit Hwrite Hread.
  assert (Hinvoke : forall o w self,
            Forall P (calls_of (run h (invoke o self) w))).
  { intros [a v|a] w self; unfold invoke, bind; rewrite calls_pbind;
      apply Forall_app; split; auto.
    - destruct (value_of (run h (write_byte a v self) w)) as [[[]|e] d];
        constructor.
    - destruct (value_of (run h (read_byte a self) w)) as [[x|e] d];
        constructor. }
  assert (Hall : forall ops w self,
            Forall P (calls_of (run h (invoke_all ops self) w))).
  { induction ops as [|o ops IH]; intros w self; cbn [invoke_all].
    - constructor.
    - rewrite calls_pbind. apply Forall_app. split; [apply Hinvoke|].
      destruct (value_of (run h (invoke o self) w)) as [r d].
      rewrite calls_pbind. apply Forall_app. split; [apply IH|].
      destruct (value_of (run h (invoke_all ops d) _)) as [rs d'].
      constructor. }
  intros w spi cs ops. unfold execution. rewrite calls_pbind.
  apply Forall_app. split; [apply Hinit|].
  destruct (value_of (run h (mb_23LC1024 spi cs) w)) as [d|e].
  - rewrite calls_pbind. apply Forall_app. split; [apply Hall|].
    constructor.
  - constructor.
Qed.

Ltac shapes :=
  repeat match goal with
         | H : bytearray _ = Ok _ |- _ => apply bytearray_map in H
         end;
  repeat match goal with
         | |- Forall _ _ => constructor
         end; cbn;
  solve [ reflexivity
        | left; reflexivity
        | right; reflexivity
        | left; eassumption
        | right; left; eauto
        | right; right; eauto ].

Lemma write_byte_shaped w self a v :
  Forall shaped (calls_of (run h (write_byte a v self) w)).
Proof. unfold write_byte. paths h; shapes. Qed.

Lemma read_byte_shaped w self a :
  Forall shaped (calls_of (run h (read_byte a self) w)).
Proof. unfold read_byte. paths h; shapes. Qed.

Lemma construction_shaped w spi cs :
  Forall shaped (calls_of (run h (mb_23LC1024 spi cs) w)).
Proof.
  unfold mb_23LC1024, __init__. cbn. rewrite mode_buffer.
  paths h; shapes.
Qed.

End Protocol.

(** X3. In every execution, on any transport, every call has one of the
    shapes of the protocol: a bus write is the two bytes [0x01, 0x00],
    or five bytes that start with 0x02, or four bytes that start with
    0x03; a bus read asks for exactly one byte; /CS is only ever set to
    0 or 1; the pin is created as an output; the only delay is 50
    microseconds.  No longer transfer is ever made. *)
Theorem calls_have_protocol_shape {W} (h : transport W) (w : W)
    (spi : spi_obj) (cs : Z) (ops : list op) (c : call) :
  In c (calls_of (run h (execution spi cs ops) w)) ->
  match c with
  | Pin _ m => m = OUT
  | pin_value _ x => x = 0 \/ x = 1
  | spi_write _ buf =>
      map byte_to_Z buf = [0x01; 0x00] \/
      (exists hi mid lo v, map byte_to_Z buf = [0x02; hi; mid; lo; v]) \/
      (exists hi mid lo, map byte_to_Z buf = [0x03; hi; mid; lo])
  | spi_read _ n => n = 1
  | sleep_us us => us = 50
  end.
Proof.
  intros Hin.
  pose proof (execution_calls_Forall h shaped
                (construction_shaped h) (write_byte_shaped h)
                (read_byte_shaped h) w spi cs ops) as Hall.
  rewrite List.Forall_forall in Hall. exact (Hall c Hin).
Qed.

Lemma calls_have_protocol_shape_witness :
  match spi_read (SPI 0) 1 with
  | Pin _ m => m = OUT
  | pin_value _ x => x = 0 \/ x = 1
  | spi_write _ buf =>
      map byte_to_Z buf = [0x01; 0x00] \/
      (exists hi mid lo v, map byte_to_Z buf = [0x02; hi; mid; lo; v]) \/
      (exists hi mid lo, map byte_to_Z buf = [0x03; hi; mid; lo])
  | spi_read _ n => n = 1
  | sleep_us us => us = 50
  end.
Proof.
  apply (calls_have_protocol_shape sram (power_up 1 0) (SPI 0) 1
           [read_op 0] (spi_read (SPI 0) 1)).
  cbn. do 10 right. left. reflexivity.
Defined.

Section Windows.

Context {W : Type} (h : transport W).






End Windows.



(** On the simulated board with a bus whose writes raise, /CS is low
    after [write_byte]. *)
Example failed_write_leaves_chip_selected :
  let w := idle (power_up 1 0) ∅ ByteMode Ignoring in
  let r := run (faulty is_spi_write 5) (write_byte 0 1 memory) w in
  fst (value_of r) = Err (OSError 5) /\ cs_high (world_of r) = false.
Proof. split; reflexivity. Qed.

(** X6. On any transport, what [write_byte] and [read_byte] do does not
    depend on the attribute [value_read] of the device: with any other
    content of that attribute the calls, the answers, the result and
    the state of the transport are the same, and after a [read_byte]
    that returns, so is the device. *)
Theorem value_read_never_consulted {W} (h : transport W) (w : W)
    (self : device) (x : option pyval) (a v : Z) :
  let self' := {| spi := spi self; cs := cs self; value_read := x |} in
  (log_of (run h (write_byte a v self') w)
   = log_of (run h (write_byte a v self) w) /\
   fst (value_of (run h (write_byte a v self') w))
   = fst (value_of (run h (write_byte a v self) w)) /\
   world_of (run h (write_byte a v self') w)
   = world_of (run h (write_byte a v self) w)) /\
  (log_of (run h (read_byte a self') w)
   = log_of (run h (read_byte a self) w) /\
   fst (value_of (run h (read_byte a self') w))
   = fst (value_of (run h (read_byte a self) w)) /\
   world_of (run h (read_byte a self') w)
   = world_of (run h (read_byte a self) w) /\
   (returned (fst (value_of (run h (read_byte a self) w))) = true ->
    snd (value_of (run h (read_byte a self') w))
    = snd (value_of (run h (read_byte a self) w)))).
Proof.
  cbn zeta. split.
  - unfold write_byte. paths h; repeat split.
  - unfold read_byte. paths h; repeat split; discriminate.
Qed.

(* ===================================================================== *)
(** ** Failures of the transport *)
(* ===================================================================== *)

(** X7. On any transport, when [read_byte] raises after the bus read
    answered with [rx], the bytes object [rx] is what is left in the
    attribute [value_read] of the device: the conversion to an integer
    of line 143 was not reached. *)
Theorem failed_release_keeps_bytes {W} (h : transport W) (w : W)
    (self : device) (a : Z) (rx : bytes) (e : exn) :
  answer_of_read (log_of (run h (read_byte a self) w)) = Some (Ok rx) ->
  fst (value_of (run h (read_byte a self) w)) = Err e ->
  value_read (snd (value_of (run h (read_byte a self) w)))
  = Some (VBytes rx).
Proof.
  unfold read_byte.
  paths h; intros H1 H2; try discriminate H1; try discriminate H2.
  now injection H1 as <-.
Qed.

Lemma failed_release_keeps_bytes_witness :
  let w := idle (power_up 1 0) ∅ ByteMode Ignoring in
  value_read
    (snd (value_of (run (faulty is_cs_high 5) (read_byte 0 memory) w)))
  = Some (VBytes [x00]).
Proof.
  apply (failed_release_keeps_bytes (faulty is_cs_high 5)
           (idle (power_up 1 0) ∅ ByteMode Ignoring) memory 0 [x00]
           (OSError 5)); reflexivity.
Defined.

Ltac units :=
  repeat match goal with
         | u : unit |- _ => destruct u
         end.

(** X8. On any transport the constructor is all or nothing: when it
    returns a device, the eight calls of the construction sequence were
    all made and none raised, and the device holds the bus, the pin
    object created and no value read; when it raises, the exception is
    that of the first call that raised, and at most eight calls were
    made. *)
Theorem construction_all_or_nothing {W} (h : transport W) (w : W)
    (spi : spi_obj) (cs : Z) :
  match value_of (run h (mb_23LC1024 spi cs) w) with
  | Ok self =>
      exists p,
        log_of (run h (mb_23LC1024 spi cs) w) = construction_log spi cs p /\
        self = {| spi := Some spi; cs := Some p; value_read := None |}
  | Err e =>
      first_failure (log_of (run h (mb_23LC1024 spi cs) w)) = Some e /\
      (length (log_of (run h (mb_23LC1024 spi cs) w)) <= 8)%nat
  end.
Proof.
  unfold mb_23LC1024, __init__. cbn. rewrite mode_buffer.
  paths h; units;
    first [ split; [reflexivity | cbn; lia]
          | eexists; split; reflexivity ].
Qed.

(** X9. On a constructed device and with arguments in range, an
    exception of [write_byte] or [read_byte] is always an exception of
    the transport: the method raises exactly when one of its calls
    raised, and then with the exception of that call. *)
Theorem exceptions_come_from_transport {W} (h : transport W) (w : W)
    (self : device) (p : pin_obj) (s : spi_obj) (a v : Z) :
  cs self = Some p -> spi self = Some s ->
  0 <= a <= 131071 -> 0 <= v <= 255 ->
  raised (fst (value_of (run h (write_byte a v self) w)))
  = first_failure (log_of (run h (write_byte a v self) w)) /\
  raised (fst (value_of (run h (read_byte a self) w)))
  = first_failure (log_of (run h (read_byte a self) w)).
Proof.
  intros Hp Hs Ha Hv.
  destruct (write_buffer a v Ha Hv) as [wbuf [Hwbuf _]].
  destruct (read_buffer a Ha) as [rbuf [Hrbuf _]].
  split.
  - unfold write_byte.
    rewrite (range_check_false a 131071 Ha), (range_check_false v 255 Hv).
    cbn. unfold self_cs, self_spi. rewrite Hp, Hs, Hwbuf.
    paths h; reflexivity.
  - unfold read_byte. rewrite (range_check_false a 131071 Ha).
    cbn. unfold self_cs, self_spi. rewrite Hp, Hs, Hrbuf.
    paths h; reflexivity.
Qed.

Lemma exceptions_come_from_transport_witness :
  let w := idle (power_up 1 0) ∅ ByteMode Ignoring in
  raised (fst (value_of
    (run (faulty is_spi_write 5) (write_byte 131071 38 memory) w)))
  = first_failure (log_of
      (run (faulty is_spi_write 5) (write_byte 131071 38 memory) w)) /\
  raised (fst (value_of
    (run (faulty is_spi_write 5) (read_byte 131071 memory) w)))
  = first_failure (log_of
      (run (faulty is_spi_write 5) (read_byte 131071 memory) w)).
Proof.
  apply (exceptions_come_from_transport (faulty is_spi_write 5)
           (idle (power_up 1 0) ∅ ByteMode Ignoring) memory
           (PinObj 1) (SPI 0) 131071 38);
    [reflexivity | reflexivity | lia | lia].
Defined.

(* ===================================================================== *)
(** ** An answer of any length *)
(* ===================================================================== *)

Lemma fold_from_bytes_bound (b : bytes) : forall acc,
  0 <= acc ->
  0 <= fold_left (fun acc x => acc * 256 + byte_to_Z x) b acc
  < (acc + 1) * 256 ^ Z.of_nat (length b).
Proof.
  induction b as [|x b IH]; intros acc Hacc.
  - cbn. lia.
  - cbn [fold_left length]. pose proof (byte_to_Z_range x) as Hx.
    assert (Hacc' : 0 <= acc * 256 + byte_to_Z x) by lia.
    specialize (IH _ Hacc').
    rewrite Nat2Z.inj_succ, Z.pow_succ_r by lia.
    assert (Hpow : 0 < 256 ^ Z.of_nat (length b))
      by (apply Z.pow_pos_nonneg; lia).
    nia.
Qed.

Lemma int_from_bytes_big_bound (b : bytes) :
  0 <= int_from_bytes_big b < 256 ^ Z.of_nat (length b).
Proof.
  unfold int_from_bytes_big.
  pose proof (fold_from_bytes_bound b 0 ltac:(lia)). lia.
Qed.

(** X10. On a constructed device, a transport that answers every call
    and an address in range, [read_byte] returns the big-endian value
    of whatever the bus read answered, of any length: a non-negative
    integer below 256 to the number of bytes answered, hence 0 for an
    empty answer; the driver does not check that one byte came back. *)
Theorem read_byte_any_answer {W} (h : transport W) (w : W)
    (self : device) (p : pin_obj) (s : spi_obj) (a : Z) :
  reliable h ->
  cs self = Some p -> spi self = Some s ->
  0 <= a <= 131071 ->
  exists rx,
    answer_of_read (log_of (run h (read_byte a self) w)) = Some (Ok rx) /\
    fst (value_of (run h (read_byte a self) w))
    = Ok (VInt (int_from_bytes_big rx)) /\
    0 <= int_from_bytes_big rx < 256 ^ Z.of_nat (length rx) /\
    (rx = [] -> int_from_bytes_big rx = 0).
Proof.
  intros Hrel Hp Hs Ha.
  destruct (read_byte_run h w self p s a Hrel Hp Hs Ha)
    as (buf & rx & w' & w'' & _ & _ & Hrun).
  exists rx. rewrite Hrun.
  split; [reflexivity|]. split; [reflexivity|].
  split; [apply int_from_bytes_big_bound|]. now intros ->.
Qed.

Lemma answering_reliable bs : reliable (answering bs).
Proof.
  intros c w. destruct c as [id m|q x|s buf|s n|us]; cbn; eauto.
Qed.

Lemma read_byte_any_answer_witness :
  let w := idle (power_up 1 0) ∅ ByteMode Ignoring in
  exists rx,
    answer_of_read
      (log_of (run (answering [x01; x02]) (read_byte 0 memory) w))
    = Some (Ok rx) /\
    fst (value_of (run (answering [x01; x02]) (read_byte 0 memory) w))
    = Ok (VInt (int_from_bytes_big rx)) /\
    0 <= int_from_bytes_big rx < 256 ^ Z.of_nat (length rx) /\
    (rx = [] -> int_from_bytes_big rx = 0).
Proof.
  apply (read_byte_any_answer (answering [x01; x02])
           (idle (power_up 1 0) ∅ ByteMode Ignoring) memory
           (PinObj 1) (SPI 0) 0 (answering_reliable [x01; x02]));
    [reflexivity | reflexivity | lia].
Defined.

(** A two-byte answer is returned as one integer above 255. *)
Example two_byte_answer :
  fst (value_of (run (answering [x01; x02]) (read_byte 0 memory)
                   (idle (power_up 1 0) ∅ ByteMode Ignoring)))
  = Ok (VInt 258).
Proof. reflexivity. Qed.

(* ===================================================================== *)
(** ** The example script *)
(* ===================================================================== *)

Section Example.

Lemma run_bind {W A B} (h : transport W) (m : meth A) (f : A -> meth B)
    (self : device) (w : W) :
  run h (bind m f self) w =
  let '(t1, (r, d), w1) := run h (m self) w in
  match r with
  | Ok a =>
      let '(t2, x, w2) := run h (f a d) w1 in
      (t1 ++ t2, x, w2)
  | Err e => (t1, (Err e, d), w1)
  end.
Proof.
  unfold bind. rewrite run_pbind.
  destruct (run h (m self) w) as [[t1 [[a|e] d]] w1]; cbn.
  - now destruct (run h (f a d) w1) as [[t2 x] w2].
  - now rewrite app_nil_r.
Qed.

Lemma peek_idle w m md st a :
  peek (sram_chip (idle w m md st)) a = default x00 (m !! a).
Proof. reflexivity. Qed.

(** The body of the script on an attached board. *)
Lemma example_body_prints w self :
  attached w self ->
  fst (value_of (run sram (example_body self) w))
  = Ok [VInt 38; VInt 255].
Proof.
  intros Hatt. unfold example_body.
  destruct (write_byte_world w self 131071 38 Hatt ltac:(lia) ltac:(lia))
    as (b1 & Hb1 & Hv1 & Hw1).
  rewrite run_bind.
  destruct (run sram (write_byte 131071 38 self) w) as [[t1 [r1 d1]] w1].
  cbn [value_of world_of fst snd] in Hv1, Hw1.
  injection Hv1 as -> ->. subst w1.
  set (w1 := idle w _ _ _).
  assert (Hatt1 : attached w1 self) by now apply attached_idle.
  destruct (write_byte_world w1 self 0 255 Hatt1 ltac:(lia) ltac:(lia))
    as (b2 & Hb2 & Hv2 & Hw2).
  rewrite run_bind.
  destruct (run sram (write_byte 0 255 self) w1) as [[t2 [r2 d2]] w2].
  cbn [value_of world_of fst snd] in Hv2, Hw2.
  injection Hv2 as -> ->. subst w2.
  set (w2 := idle w1 _ _ _).
  assert (Hatt2 : attached w2 self) by now apply attached_idle.
  destruct (read_byte_world w2 self 131071 Hatt2 ltac:(lia))
    as (Hv3 & Hatt3 & Hw3).
  rewrite run_bind.
  destruct (run sram (read_byte 131071 self) w2) as [[t3 [r3 d3]] w3].
  cbn [value_of world_of fst snd] in Hv3, Hatt3, Hw3. subst r3 w3.
  set (w3 := idle w2 _ _ _).
  assert (Hatt4 : attached w3 d3) by now apply attached_idle.
  destruct (read_byte_world w3 d3 0 Hatt4 ltac:(lia)) as (Hv4 & _ & _).
  rewrite run_bind.
  destruct (run sram (read_byte 0 d3) w3) as [[t4 [r4 d4]] w4].
  cbn [value_of world_of fst snd] in Hv4. subst r4.
  cbn [value_of fst snd ret run app].
  subst w3 w2 w1. rewrite !peek_idle.
  cbn [sram_chip mem idle].
  rewrite lookup_insert_ne by lia.
  rewrite !lookup_insert_eq. cbn [default from_option]. unfold id.
  now rewrite (byte_of_int_inv _ _ Hb1), (byte_of_int_inv _ _ Hb2).
Qed.

End Example.

(** X11. The example script prints 38 and then 255 on every simulated
    board whose chip is wired to GP1 and to the port of the bus object
    the script uses, whatever the memory held, whatever mode the chip
    was in and whatever the level of /CS was before. *)
Theorem example_prints_38_and_255 (w : board) (spi : spi_obj) :
  cs_gpio w = 1 -> spi_bus w = spi_port spi ->
  value_of (run sram (example_main spi) w) = Ok [VInt 38; VInt 255].
Proof.
  intros Hgpio Hport. destruct spi as [port]. cbn in Hport. subst port.
  pose proof (construction_world w) as Hc. rewrite Hgpio in Hc.
  unfold example_main. cbn zeta. rewrite run_pbind, Hc.
  cbn iota beta.
  assert (Hatt : attached (idle w (mem (sram_chip w)) ByteMode Ignoring)
                   {| spi := Some (SPI (spi_bus w));
                      cs := Some (PinObj 1); value_read := None |}).
  { repeat split. cbn. now rewrite Hgpio. }
  pose proof (example_body_prints _ _ Hatt) as Hbody.
  rewrite run_pbind.
  destruct (run sram (example_body _) _) as [[t [r d]] w'].
  cbn in Hbody. subst r. reflexivity.
Qed.

Lemma example_prints_38_and_255_witness :
  value_of (run sram (example_main (SPI 0)) (power_up 1 0))
  = Ok [VInt 38; VInt 255].
Proof.
  apply (example_prints_38_and_255 (power_up 1 0) (SPI 0));
    reflexivity.
Defined.

(* ===================================================================== *)
(** ** The mode constants *)
(* ===================================================================== *)

(** X12. Of the three mode constants of the module only [_MODE_BYTE],
    the one the driver sends, has the two upper bits that the comment
    above them (lines 56-58: 00 byte, 10 page, 01 sequential,
    11 reserved) gives to its mode: [_MODE_PAGE] is 0x40, whose bits 7
    and 6 are 01, the sequential mode, and [_MODE_SEQ] is 0xc0, whose
    bits are 11, the reserved value.  All three have bits 0 to 5
    clear. *)
Theorem mode_constants_bits :
  (byte_of_int _MODE_BYTE = Some x00 /\ decode_mode x00 = ByteMode) /\
  (byte_of_int _MODE_PAGE = Some x40 /\ decode_mode x40 = SequentialMode) /\
  (byte_of_int _MODE_SEQ = Some xc0 /\ decode_mode xc0 = ReservedMode) /\
  Z.land _MODE_BYTE 0x3f = 0 /\ Z.land _MODE_PAGE 0x3f = 0 /\
  Z.land _MODE_SEQ 0x3f = 0.
Proof. repeat split. Qed.

(* ===================================================================== *)
(** ** From power-up to the last call *)
(* ===================================================================== *)

(** X13. On any simulated board, in whatever state it powers up, an
    execution on the pin and the port the chip is wired to (the
    construction, then any sequence of method calls) constructs the
    device and gives the caller the results of the dictionary started
    from the memory as it was; at the end the memory is that
    dictionary, the chip is in byte mode and /CS is high. *)
Theorem execution_from_power_up (w : board) (ops : list op) :
  exists self,
    value_of (run sram (execution (SPI (spi_bus w)) (cs_gpio w) ops) w)
    = Ok (fst (store_run ops (mem (sram_chip w))), self) /\
    mem (sram_chip
           (world_of
              (run sram (execution (SPI (spi_bus w)) (cs_gpio w) ops) w)))
    = snd (store_run ops (mem (sram_chip w))) /\
    mode (sram_chip
            (world_of
               (run sram (execution (SPI (spi_bus w)) (cs_gpio w) ops) w)))
    = ByteMode /\
    cs_high
      (world_of (run sram (execution (SPI (spi_bus w)) (cs_gpio w) ops) w))
    = true.
Proof.
  unfold execution. rewrite run_pbind, construction_world. cbn iota beta.
  set (self0 := {| spi := Some (SPI (spi_bus w));
                   cs := Some (PinObj (cs_gpio w)); value_read := None |}).
  set (w0 := idle w (mem (sram_chip w)) ByteMode Ignoring).
  assert (Hatt : attached w0 self0) by (repeat split).
  destruct (invoke_all_store_run ops w0 self0 Hatt)
    as (Hval & Hmem & Hmode & Hatt').
  rewrite run_pbind.
  destruct (run sram (invoke_all ops self0) w0) as [[t [rs d]] w1].
  cbn [value_of world_of fst snd] in *.
  exists d. cbn. subst rs. repeat split; try assumption.
  apply Hatt'.
Qed.
